(** * PersonalFinanceTracker: a shallow embedding of [src/main.cpp]

    The program is a single translation unit: the transaction and investment
    class hierarchies, the [FinanceManager] ledger, the [User] account
    controller with its menu loop, and [main].

    Modelling conventions.
    - [double] is modelled by the exact rationals [Q]: the arithmetic of the
      program ([+], [-], [*], [/], [<], [pow]) is read as exact arithmetic;
      rounding, infinities and NaN are outside the model.
    - [int] is modelled by [Z], and the one [int] multiplication of the
      program ([durationYears * 12]) has its 32-bit two's-complement
      wrap-around written out ([int_mul]).
    - [std::vector] with [push_back] is a [list] extended at its end.
    - [std::cin] is a [Terminal]: the attempts the user makes at integer
      prompts, at decimal prompts, and the lines typed at text prompts; an
      attempt records what [std::cin.good()] finds after the extraction, so
      that a number cut off by the end of the input is a failed attempt.
      [std::cout] is the list of chunks inserted with [<<]; the formatting
      manipulators ([setw], [left], [fixed], ...) carry no data and are left
      out, a newline character and [std::endl] are both [Endl].
    - The member functions of [User] mutate [*this] and the streams: they are
      functions [User -> IO User] in a state monad over the terminal whose
      result is [None] when the program waits for input that never comes. *)

From Stdlib Require Import ZArith QArith Qpower Qabs String List Lia Lqa Bool.
Import ListNotations.

Open Scope Q_scope.

(** ** Machine arithmetic *)

Definition INT_MIN : Z := (- 2 ^ 31)%Z.
Definition INT_MAX : Z := (2 ^ 31 - 1)%Z.

(** The values of type [int]. *)
Definition int_fits (z : Z) : bool := ((INT_MIN <=? z) && (z <=? INT_MAX))%Z.

(** Reduction of a mathematical integer to the [int] with the same low 32 bits. *)
Definition wrap_int (z : Z) : Z := ((z + 2 ^ 31) mod 2 ^ 32 - 2 ^ 31)%Z.

(** [a * b] on [int] operands. *)
Definition int_mul (a b : Z) : Z := wrap_int (a * b).

(** [pow(x, n)] with an [int] exponent, promoted to [double] by [<cmath>]. *)
Definition pow (x : Q) (n : Z) : Q := x ^ n.

(** ** The terminal

    What [std::cout] receives: the operands of [<<], in order. *)
Inductive chunk : Type :=
| Str (s : string)
| Dbl (x : Q)
| Int (n : Z)
| Endl.

(** What [std::cin] will deliver and what [std::cout] has received.  An
    attempt at a numeric prompt is the state of the stream after
    [std::cin >> value], which is all [getNumericInput] looks at: [Some v]
    when the text typed parses as the number [v] and the input goes on after
    it (with the end of the line at least), [None] when no number can be
    extracted or when the number is the last thing in the input, which leaves
    [eofbit] set and the stream no more [good()] than a failed extraction
    does.  Nothing can follow an attempt cut by the end of the input.
    [lines] are the lines read by [std::getline]. *)
Record Terminal : Type := mkTerminal {
  ints : list (option Z);
  decimals : list (option Q);
  lines : list string;
  screen : list chunk
}.

(** Computations over the terminal; [None] when the input runs dry at a
    numeric prompt, which the program retries for ever. *)
Definition IO (A : Type) : Type := Terminal -> option (A * Terminal).

Definition ret {A : Type} (a : A) : IO A := fun t => Some (a, t).

Definition bind {A B : Type} (m : IO A) (k : A -> IO B) : IO B :=
  fun t =>
    match m t with
    | Some (a, t') => k a t'
    | None => None
    end.

Declare Scope io_scope.
Delimit Scope io_scope with io.
Notation "x <- m ;; k" := (bind m (fun x => k))
  (at level 61, m at next level, right associativity) : io_scope.
Notation "m ;;; k" := (bind m (fun _ => k))
  (at level 61, right associativity) : io_scope.

(** The terminal once [cs] has been written to it. *)
Definition emit (cs : list chunk) (t : Terminal) : Terminal :=
  {| ints := ints t; decimals := decimals t;
     lines := lines t; screen := screen t ++ cs |}.

(** [std::cout << c1 << c2 << ...]. *)
Definition print (cs : list chunk) : IO unit :=
  fun t => Some (tt, emit cs t).

(** The [while (true)] of [getNumericInput] (main.cpp 191-207) over the
    attempts still to come: the prompt is written before each attempt; an
    attempt after which [std::cin.good()] does not hold is reported and the
    rest of the line discarded.  The stream is good after [Some value] when
    the target type can hold the parsed [value], which is what the parameter
    [good] says (an [int] out of range sets [failbit]); it is not after
    [None]. *)
Fixpoint getNumericInput_loop {T : Type} (good : T -> bool) (prompt : string)
    (attempts : list (option T)) (out : list chunk)
    : option (T * list (option T) * list chunk) :=
  match attempts with
  | [] => None
  | a :: rest =>
      let out1 := out ++ [Str prompt] in
      match a with
      | Some value =>
          if good value then Some (value, rest, out1)
          else getNumericInput_loop good prompt rest
                 (out1 ++ [Str "Invalid input. Please enter a number."; Endl])
      | None =>
          getNumericInput_loop good prompt rest
            (out1 ++ [Str "Invalid input. Please enter a number."; Endl])
      end
  end.

(** [getNumericInput<int>]. *)
Definition getNumericInput_int (prompt : string) : IO Z :=
  fun t =>
    match getNumericInput_loop int_fits prompt (ints t) (screen t) with
    | Some (value, rest, out) =>
        Some (value, {| ints := rest; decimals := decimals t;
                        lines := lines t; screen := out |})
    | None => None
    end.

(** [getNumericInput<double>]. *)
Definition getNumericInput_double (prompt : string) : IO Q :=
  fun t =>
    match getNumericInput_loop (fun _ => true) prompt (decimals t) (screen t)
    with
    | Some (value, rest, out) =>
        Some (value, {| ints := ints t; decimals := rest;
                        lines := lines t; screen := out |})
    | None => None
    end.

(** [getStringInput] (main.cpp 209-214); [std::getline] on an exhausted
    stream leaves [value] empty. *)
Definition getStringInput (prompt : string) : IO string :=
  fun t =>
    match lines t with
    | [] =>
        Some (EmptyString, {| ints := ints t; decimals := decimals t;
                              lines := []; screen := screen t ++ [Str prompt] |})
    | value :: rest =>
        Some (value, {| ints := ints t; decimals := decimals t;
                        lines := rest; screen := screen t ++ [Str prompt] |})
    end.

Module Finance.

(** ** Transactions (main.cpp 13-49)

    [Transaction] is abstract; its two concrete classes differ by [getType]
    only, so the hierarchy is a two-constructor type carrying the fields of
    the base class. *)
Inductive Transaction : Type :=
| Income (amt : Q) (des : string)
| Expenditure (amt : Q) (des : string).

Definition Transaction_getType (t : Transaction) : string :=
  match t with
  | Income _ _ => "Income"
  | Expenditure _ _ => "Expenditure"
  end.

Definition getAmount (t : Transaction) : Q :=
  match t with
  | Income amt _ => amt
  | Expenditure amt _ => amt
  end.

Definition getDescription (t : Transaction) : string :=
  match t with
  | Income _ des => des
  | Expenditure _ des => des
  end.

(** ** Investments (main.cpp 53-118) *)
Inductive Investment : Type :=
| SIP (principalAmt : Q) (dur : Z) (monthlyAmt : Q)
| FD (amt : Q) (dur : Z).

Definition Investment_getType (i : Investment) : string :=
  match i with
  | SIP _ _ _ => "SIP"
  | FD _ _ => "Fixed Deposit"
  end.

Definition getPrincipal (i : Investment) : Q :=
  match i with
  | SIP p _ _ => p
  | FD p _ => p
  end.

Definition getDurationYears (i : Investment) : Z :=
  match i with
  | SIP _ d _ => d
  | FD _ d => d
  end.

(** [SIP::ANNUAL_RATE] and [FD::ANNUAL_RATE]. *)
Definition SIP_ANNUAL_RATE : Q := 0.096.
Definition FD_ANNUAL_RATE : Q := 0.071.

(** [SIP::getMaturityAmount] (main.cpp 88-93). *)
Definition SIP_getMaturityAmount (principal : Q) (durationYears : Z)
    (monthlyInvestment : Q) : Q :=
  let finalAmount :=
    principal * pow (1 + SIP_ANNUAL_RATE / 12) (int_mul durationYears 12) in
  let monthlyContributionFutureValue :=
    monthlyInvestment *
    ((pow (1 + SIP_ANNUAL_RATE / 12) (int_mul durationYears 12) - 1)
     / (SIP_ANNUAL_RATE / 12)) in
  finalAmount + monthlyContributionFutureValue.

(** [FD::getMaturityAmount] (main.cpp 110-112). *)
Definition FD_getMaturityAmount (principal : Q) (durationYears : Z) : Q :=
  principal * pow (1 + FD_ANNUAL_RATE) durationYears.

(** The virtual call [inv->getMaturityAmount()]. *)
Definition getMaturityAmount (i : Investment) : Q :=
  match i with
  | SIP p d m => SIP_getMaturityAmount p d m
  | FD p d => FD_getMaturityAmount p d
  end.

(** [Transaction::display] (main.cpp 30-34). *)
Definition Transaction_display (t : Transaction) : list chunk :=
  [Str (Transaction_getType t); Dbl (getAmount t); Str "    ";
   Str (getDescription t); Endl].

(** [Investment::display] (main.cpp 67-71) and its two overrides. *)
Definition Investment_display_base (i : Investment) : list chunk :=
  [Str (Investment_getType i); Dbl (getPrincipal i);
   Int (getDurationYears i); Str " yrs"].

Definition Investment_display (i : Investment) : list chunk :=
  match i with
  | SIP _ _ monthlyInvestment =>
      Investment_display_base i ++
      [Str " (Monthly: "; Dbl monthlyInvestment; Str ")"; Endl]
  | FD _ _ => Investment_display_base i ++ [Endl]
  end.

(** ** The ledger (main.cpp 120-175) *)
Record FinanceManager : Type := mkFinanceManager {
  transactions : list Transaction;
  investments : list Investment
}.

(** The default constructor: two empty vectors. *)
Definition FinanceManager_new : FinanceManager :=
  {| transactions := []; investments := [] |}.

Definition addTransaction (t : Transaction) (fm : FinanceManager)
    : FinanceManager :=
  {| transactions := transactions fm ++ [t];
     investments := investments fm |}.

Definition addInvestment (i : Investment) (fm : FinanceManager)
    : FinanceManager :=
  {| transactions := transactions fm;
     investments := investments fm ++ [i] |}.

Definition getTransactions (fm : FinanceManager) : list Transaction :=
  transactions fm.

Definition getInvestments (fm : FinanceManager) : list Investment :=
  investments fm.

Definition displayTransactionHistory (fm : FinanceManager) : list chunk :=
  [Endl; Str "--- Transaction History ---"; Endl;
   Str "Type"; Str "Amount"; Str "    "; Str "Description"; Endl;
   Str "--------------------------------------------------"; Endl]
  ++ flat_map Transaction_display (transactions fm).

Definition displayInvestmentPortfolio (fm : FinanceManager) : list chunk :=
  [Endl; Str "--- Investment Portfolio ---"; Endl;
   Str "Type"; Str "Principal"; Str "Duration"; Str "  Details"; Endl;
   Str "----------------------------------------------------------------------";
   Endl]
  ++ flat_map Investment_display (investments fm).

(** The body of the indexed loop of [displayInvestmentProjections], from
    index [i] on. *)
Fixpoint projections_from (i : nat) (invs : list Investment) : list chunk :=
  match invs with
  | [] => []
  | inv :: rest =>
      [Str "Portfolio Item "; Int (Z.of_nat i + 1); Str " (";
       Str (Investment_getType inv); Str "):"; Endl;
       Str "  Matures to: "; Dbl (getMaturityAmount inv); Str " INR"; Endl]
      ++ projections_from (S i) rest
  end.

Definition displayInvestmentProjections (fm : FinanceManager) : list chunk :=
  [Endl; Str "--- Investment Maturity Projections ---"; Endl]
  ++ projections_from 0 (investments fm).

(** ** The account controller (main.cpp 177-307) *)
Record User : Type := mkUser {
  manager : FinanceManager;
  balance : Q
}.

(** [explicit User(double initialBalance)]. *)
Definition User_new (initialBalance : Q) : User :=
  {| manager := FinanceManager_new; balance := initialBalance |}.

Definition MINIMUM_BALANCE : Q := 1000.

Local Open Scope io_scope.

(** [User::recordIncome] (main.cpp 250-257). *)
Definition recordIncome (u : User) : IO User :=
  amt <- getNumericInput_double "Enter income amount: " ;;
  desc <- getStringInput "Enter description (e.g., Salary): " ;;
  let u1 := {| manager := addTransaction (Income amt desc) (manager u);
               balance := balance u + amt |} in
  print [Str "Income recorded successfully."; Endl] ;;;
  ret u1.

(** [User::recordExpenditure] (main.cpp 259-270). *)
Definition recordExpenditure (u : User) : IO User :=
  amt <- getNumericInput_double "Enter expenditure amount: " ;;
  if Qlt_le_dec (balance u - amt) MINIMUM_BALANCE then
    print [Str "Error: Transaction declined. Balance cannot fall below ";
           Dbl MINIMUM_BALANCE; Str " INR."; Endl] ;;;
    ret u
  else
    desc <- getStringInput "Enter description (e.g., Groceries): " ;;
    let u1 := {| manager := addTransaction (Expenditure amt desc) (manager u);
                 balance := balance u - amt |} in
    print [Str "Expenditure recorded successfully."; Endl] ;;;
    ret u1.

(** [User::makeInvestment] (main.cpp 272-307). *)
Definition makeInvestment (u : User) : IO User :=
  print [Endl; Str "--- New Investment ---"; Endl;
         Str "1. Systematic Investment Plan (SIP)"; Endl;
         Str "2. Fixed Deposit (FD)"; Endl;
         Str "0. Back to Main Menu"; Endl] ;;;
  choice <- getNumericInput_int "Choose investment type: " ;;
  if (choice =? 0)%Z then ret u
  else
    principal <- getNumericInput_double "Enter principal amount to invest: " ;;
    if Qlt_le_dec (balance u - principal) MINIMUM_BALANCE then
      print [Str "Error: Investment failed. Balance cannot fall below ";
             Dbl MINIMUM_BALANCE; Str " INR."; Endl] ;;;
      ret u
    else
      duration <- getNumericInput_int "Enter duration in years: " ;;
      if (choice =? 1)%Z then
        monthly <- getNumericInput_double "Enter monthly investment amount: " ;;
        let u1 := {| manager :=
                       addInvestment (SIP principal duration monthly) (manager u);
                     balance := balance u - principal |} in
        print [Str "SIP investment made successfully."; Endl] ;;;
        ret u1
      else if (choice =? 2)%Z then
        let u1 := {| manager := addInvestment (FD principal duration) (manager u);
                     balance := balance u - principal |} in
        print [Str "FD investment made successfully."; Endl] ;;;
        ret u1
      else
        print [Str "Invalid investment type."; Endl] ;;;
        ret u.

(** The menu written at the top of each iteration of [User::run]
    (main.cpp 222-231). *)
Definition menu (u : User) : list chunk :=
  [Endl; Str "========= FINANCE MENU ========="; Endl;
   Str "Current Balance: "; Dbl (balance u); Str " INR"; Endl;
   Str "--------------------------------"; Endl;
   Str "1. Record Income"; Endl;
   Str "2. Record Expenditure"; Endl;
   Str "3. Make Investment"; Endl;
   Str "4. View Transaction History"; Endl;
   Str "5. View Investment Portfolio"; Endl;
   Str "6. View Investment Projections"; Endl;
   Str "0. Exit"; Endl].

(** The [switch (choice)] of [User::run] (main.cpp 235-244). *)
Definition dispatch (choice : Z) (u : User) : IO User :=
  match choice with
  | 1%Z => recordIncome u
  | 2%Z => recordExpenditure u
  | 3%Z => makeInvestment u
  | 4%Z => print (displayTransactionHistory (manager u)) ;;; ret u
  | 5%Z => print (displayInvestmentPortfolio (manager u)) ;;; ret u
  | 6%Z => print (displayInvestmentProjections (manager u)) ;;; ret u
  | 0%Z => print [Str "Exiting. Goodbye!"; Endl] ;;; ret u
  | _ => print [Str "Invalid option. Please try again."; Endl] ;;; ret u
  end.

(** One pass through the body of the [while] of [User::run]: the menu, the
    selection, the [switch].  The selection read is returned with the
    account, as the loop condition tests it next. *)
Definition iteration (u : User) : IO (Z * User) :=
  print (menu u) ;;;
  choice <- getNumericInput_int "Enter choice: " ;;
  u1 <- dispatch choice u ;;
  ret (choice, u1).

(** [while (choice != 0) { ... }] with at most [fuel] passes through the
    body; [None] also when the passes are used up. *)
Fixpoint run_loop (fuel : nat) (choice : Z) (u : User) : IO User :=
  if (choice =? 0)%Z then ret u
  else
    match fuel with
    | O => fun _ => None
    | S fuel' =>
        r <- iteration u ;;
        run_loop fuel' (fst r) (snd r)
    end.

(** [User::run] (main.cpp 219-246): [int choice = -1;] and the loop. *)
Definition run (fuel : nat) (u : User) : IO User :=
  run_loop fuel (-1)%Z u.

End Finance.

(** [main] (main.cpp 311-318); the value returned is the exit code. *)
Definition main (fuel : nat) : IO Z :=
  (print [Str "--- Welcome to your Personal Finance Management System! ---";
          Endl] ;;;
   let initialBalance := 5000 in
   _ <- Finance.run fuel (Finance.User_new initialBalance) ;;
   ret 0%Z)%io.

Import Finance.

(** ** Vocabulary of the properties *)

(** The operation was refused: the account is what it was. *)
Definition rejected (u u' : User) : Prop := u' = u.

(** Exactly one transaction [rec] was added, nothing else moved in the ledger. *)
Definition one_transaction_appended (rec : Transaction) (u u' : User) : Prop :=
  transactions (manager u') = transactions (manager u) ++ [rec] /\
  investments (manager u') = investments (manager u).

(** Exactly one investment [rec] was added, nothing else moved in the ledger. *)
Definition one_investment_appended (rec : Investment) (u u' : User) : Prop :=
  investments (manager u') = investments (manager u) ++ [rec] /\
  transactions (manager u') = transactions (manager u).

(** The last thing written on the terminal is [msg]. *)
Definition reports (msg : list chunk) (t : Terminal) : Prop :=
  exists before, screen t = before ++ msg.

(** The refusals of the balance guard, as written by [recordExpenditure] and
    [makeInvestment]. *)
Definition declined_expenditure : list chunk :=
  [Str "Error: Transaction declined. Balance cannot fall below ";
   Dbl MINIMUM_BALANCE; Str " INR."; Endl].

Definition declined_investment : list chunk :=
  [Str "Error: Investment failed. Balance cannot fall below ";
   Dbl MINIMUM_BALANCE; Str " INR."; Endl].

(** The submenu of [makeInvestment]. *)
Definition investment_menu : list chunk :=
  [Endl; Str "--- New Investment ---"; Endl;
   Str "1. Systematic Investment Plan (SIP)"; Endl;
   Str "2. Fixed Deposit (FD)"; Endl;
   Str "0. Back to Main Menu"; Endl].

(** *** Concrete accounts and terminals *)

(** The account of [main]: balance 5000, empty ledger. *)
Definition account0 : User := User_new 5000.

(** A terminal with the given answers, each followed by the end of its line,
    and an empty screen. *)
Definition typed (zs : list Z) (qs : list Q) (ls : list string) : Terminal :=
  {| ints := map Some zs; decimals := map Some qs; lines := ls; screen := [] |}.

(** *** Sequences of ledger calls *)

(** The two mutators of [FinanceManager], as data. *)
Inductive ledger_op : Type :=
| AddTransaction (t : Transaction)
| AddInvestment (i : Investment).

Definition apply_op (fm : FinanceManager) (op : ledger_op) : FinanceManager :=
  match op with
  | AddTransaction t => addTransaction t fm
  | AddInvestment i => addInvestment i fm
  end.

(** The calls [ops], made one after the other on [fm]. *)
Definition apply_ops (ops : list ledger_op) (fm : FinanceManager)
    : FinanceManager :=
  fold_left apply_op ops fm.

(** The transactions among [ops], in the order of the calls. *)
Fixpoint added_transactions (ops : list ledger_op) : list Transaction :=
  match ops with
  | [] => []
  | AddTransaction t :: rest => t :: added_transactions rest
  | AddInvestment _ :: rest => added_transactions rest
  end.

(** The investments among [ops], in the order of the calls. *)
Fixpoint added_investments (ops : list ledger_op) : list Investment :=
  match ops with
  | [] => []
  | AddTransaction _ :: rest => added_investments rest
  | AddInvestment i :: rest => i :: added_investments rest
  end.

(** *** Runs of the menu loop *)

(** The selections [cs] are read and processed one after the other, each by
    one pass through the loop body, leading from [(u, t)] to [(u', t')]. *)
Inductive passes : User -> Terminal -> list Z -> User -> Terminal -> Prop :=
| passes_nil (u : User) (t : Terminal) : passes u t [] u t
| passes_cons (u u1 u2 : User) (t t1 t2 : Terminal) (c : Z) (cs : list Z) :
    iteration u t = Some ((c, u1), t1) ->
    passes u1 t1 cs u2 t2 ->
    passes u t (c :: cs) u2 t2.

Definition nonzero (c : Z) : Prop := c <> 0%Z.

(** The same, said with the calls of the loop body: each of the selections
    [cs] is the number [getNumericInput<int>] returns at "Enter choice: "
    after the menu, and is handed to the [switch]. *)
Inductive menu_session
    : User -> Terminal -> list Z -> User -> Terminal -> Prop :=
| menu_session_nil (u : User) (t : Terminal) : menu_session u t [] u t
| menu_session_cons (u u1 u2 : User) (t t0 t1 t2 : Terminal) (c : Z)
    (cs : list Z) :
    getNumericInput_int "Enter choice: " (emit (menu u) t) = Some (c, t0) ->
    dispatch c u t0 = Some (u1, t1) ->
    menu_session u1 t1 cs u2 t2 ->
    menu_session u t (c :: cs) u2 t2.

(** What the two [default] branches write. *)
Definition invalid_option : list chunk :=
  [Str "Invalid option. Please try again."; Endl].

Definition invalid_investment_type : list chunk :=
  [Str "Invalid investment type."; Endl].

(** What selections 4, 5 and 6 write. *)
Definition report (choice : Z) (fm : FinanceManager) : list chunk :=
  match choice with
  | 4%Z => displayTransactionHistory fm
  | 5%Z => displayInvestmentPortfolio fm
  | _ => displayInvestmentProjections fm
  end.

(** The account of the scenario "5000, then rent 3000". *)
Definition account_after_rent : User :=
  {| manager := addTransaction (Expenditure 3000 "Rent") FinanceManager_new;
     balance := 2000 |}.

(** *** The invariants of the data model *)

(** [amount >= 0]. *)
Definition transaction_ok (t : Transaction) : Prop := 0 <= getAmount t.

(** [principal >= 0] and [durationYears >= 0]. *)
Definition investment_ok (i : Investment) : Prop :=
  0 <= getPrincipal i /\ (0 <= getDurationYears i)%Z.

(** The invariants the data model states for the stored records. *)
Definition ledger_ok (fm : FinanceManager) : Prop :=
  Forall transaction_ok (transactions fm) /\
  Forall investment_ok (investments fm).

(** Every number the user will type is non-negative. *)
Definition nonneg_int (a : option Z) : Prop :=
  match a with Some z => (0 <= z)%Z | None => True end.

Definition nonneg_decimal (a : option Q) : Prop :=
  match a with Some q => 0 <= q | None => True end.

Definition nonneg_terminal (t : Terminal) : Prop :=
  Forall nonneg_int (ints t) /\ Forall nonneg_decimal (decimals t).

(** [m] keeps the terminal non-negative and returns a value satisfying [post]. *)
Definition keeps {A : Type} (m : IO A) (post : A -> Prop) : Prop :=
  forall t a t', nonneg_terminal t -> m t = Some (a, t') ->
                 post a /\ nonneg_terminal t'.

(** The ledger of the account satisfies [ledger_ok]. *)
Definition account_ok (u : User) : Prop := ledger_ok (manager u).

(** *** Maturity formulas

    The maturity of a recurring-contribution plan as section 4.3 of the
    specification writes it, on mathematical integers: [n = 12 * d] months at
    the monthly rate [r / 12], with [r = 0.096]. *)
Definition SIP_maturity_formula (p : Q) (d : Z) (m : Q) : Q :=
  let r := 0.096 in
  let n := (12 * d)%Z in
  p * (1 + r / 12) ^ n + m * (((1 + r / 12) ^ n - 1) / (r / 12)).

(** The factor by which a SIP grows in a month. *)
Definition monthly_growth : Q := 1 + SIP_ANNUAL_RATE / 12.

(** The factor by which a fixed deposit grows in a year. *)
Definition yearly_growth : Q := 1 + FD_ANNUAL_RATE.

(** *** Retries at a numeric prompt *)

(** What is typed at a numeric prompt: text that parses as a number, with
    something after it in the input ([more = true], the end of the line at
    least) or as the very last thing in it, or text that is no number. *)
Inductive keyed (T : Type) : Type :=
| Number (v : T) (more : bool)
| Word.

Arguments Number {T} v more.
Arguments Word {T}.

(** The attempt it makes, as [std::cin.good()] sees it (main.cpp 196-197). *)
Definition attempt_of {T : Type} (k : keyed T) : option T :=
  match k with
  | Number v true => Some v
  | Number _ false => None
  | Word => None
  end.

(** An attempt that [getNumericInput] does not accept: the extraction fails,
    or the number parsed does not fit the target type. *)
Definition refused {T : Type} (good : T -> bool) (a : option T) : Prop :=
  match a with
  | Some v => good v = false
  | None => True
  end.

(** What [n] refused attempts leave on the screen: each time the prompt and
    the complaint. *)
Fixpoint retries (prompt : string) (n : nat) : list chunk :=
  match n with
  | O => []
  | S k =>
      [Str prompt; Str "Invalid input. Please enter a number."; Endl]
      ++ retries prompt k
  end.

(** *** Reading a report back *)

(** The [double] values written, in order. *)
Fixpoint numbers_shown (cs : list chunk) : list Q :=
  match cs with
  | [] => []
  | Dbl x :: rest => x :: numbers_shown rest
  | _ :: rest => numbers_shown rest
  end.

(** The integer values written, in order. *)
Fixpoint integers_shown (cs : list chunk) : list Z :=
  match cs with
  | [] => []
  | Int n :: rest => n :: integers_shown rest
  | _ :: rest => integers_shown rest
  end.

(** The number of line ends written. *)
Fixpoint lines_shown (cs : list chunk) : nat :=
  match cs with
  | [] => O
  | Endl :: rest => S (lines_shown rest)
  | _ :: rest => lines_shown rest
  end.

(** The numbers an investment shows in the portfolio: its principal, and the
    monthly amount when it is a SIP. *)
Definition portfolio_numbers (i : Investment) : list Q :=
  match i with
  | SIP p _ m => [p; m]
  | FD p _ => [p]
  end.

(** *** Properties of computations over the terminal *)

(** Every decimal the user will type is non-negative. *)
Definition nonneg_decimals (t : Terminal) : Prop :=
  Forall nonneg_decimal (decimals t).

(** [m] keeps the invariant [Inv] of the terminal and returns a value
    satisfying [post]. *)
Definition preserves {A : Type} (Inv : Terminal -> Prop) (m : IO A)
    (post : A -> Prop) : Prop :=
  forall t a t', Inv t -> m t = Some (a, t') -> post a /\ Inv t'.

(** [m] only adds to the screen. *)
Definition writes_on {A : Type} (m : IO A) : Prop :=
  forall t a t', m t = Some (a, t') -> exists out, screen t' = screen t ++ out.

Definition goodbye : list chunk := [Str "Exiting. Goodbye!"; Endl].

Definition welcome : list chunk :=
  [Str "--- Welcome to your Personal Finance Management System! ---"; Endl].

(** The account is at or above the floor. *)
Definition above_floor (u : User) : Prop := MINIMUM_BALANCE <= balance u.

(** ** Reading from the terminal *)

Lemma getStringInput_total (prompt : string) (t : Terminal) :
  exists desc t', getStringInput prompt t = Some (desc, t').
Proof.
  unfold getStringInput. destruct (lines t); eauto.
Qed.

Lemma reports_emit (msg : list chunk) (t : Terminal) : reports msg (emit msg t).
Proof. exists (screen t). reflexivity. Qed.

(** *** The retry loop of [getNumericInput] *)

Lemma getNumericInput_loop_skips {T : Type} (good : T -> bool) (prompt : string)
    (skipped rest : list (option T)) (out : list chunk) (v : T) :
  Forall (refused good) skipped ->
  good v = true ->
  getNumericInput_loop good prompt (skipped ++ Some v :: rest) out
  = Some (v, rest, out ++ retries prompt (length skipped) ++ [Str prompt]).
Proof.
  intros Hskipped Hv. revert out.
  induction Hskipped as [| a skipped Ha _ IH]; intros out.
  - cbn. now rewrite Hv.
  - cbn [app getNumericInput_loop length retries].
    assert (Hnext : getNumericInput_loop good prompt (skipped ++ Some v :: rest)
                      ((out ++ [Str prompt])
                       ++ [Str "Invalid input. Please enter a number."; Endl])
                    = Some (v, rest,
                            out ++ ([Str prompt;
                                     Str "Invalid input. Please enter a number.";
                                     Endl] ++ retries prompt (length skipped))
                                ++ [Str prompt])).
    { rewrite IH. rewrite <- !app_assoc. reflexivity. }
    destruct a as [w |]; [cbn in Ha; rewrite Ha |]; exact Hnext.
Qed.

Lemma getNumericInput_loop_none {T : Type} (good : T -> bool) (prompt : string)
    (attempts : list (option T)) (out : list chunk) :
  getNumericInput_loop good prompt attempts out = None <->
  Forall (refused good) attempts.
Proof.
  revert out. induction attempts as [| a attempts IH]; intros out.
  - cbn. split; [constructor | reflexivity].
  - cbn [getNumericInput_loop]. destruct a as [v |].
    + destruct (good v) eqn:Hv.
      * split; [discriminate |]. intros H. inversion H as [| ? ? Hr _]; subst.
        cbn in Hr. congruence.
      * rewrite IH. split; [now constructor |].
        intros H. now inversion H.
    + rewrite IH. split; [now constructor |]. intros H. now inversion H.
Qed.

(** The attempts before the one returned were all refused. *)
Lemma getNumericInput_loop_first {T : Type} (good : T -> bool) (prompt : string)
    (attempts rest : list (option T)) (out out' : list chunk) (v : T) :
  getNumericInput_loop good prompt attempts out = Some (v, rest, out') ->
  exists skipped,
    attempts = skipped ++ Some v :: rest /\
    Forall (refused good) skipped /\ good v = true /\
    out' = out ++ retries prompt (length skipped) ++ [Str prompt].
Proof.
  revert out. induction attempts as [| a attempts IH]; intros out Hread.
  - discriminate.
  - cbn [getNumericInput_loop] in Hread.
    assert (Hrec : forall (Ha : refused good a),
               getNumericInput_loop good prompt attempts
                 ((out ++ [Str prompt])
                  ++ [Str "Invalid input. Please enter a number."; Endl])
               = Some (v, rest, out') ->
               exists skipped,
                 a :: attempts = skipped ++ Some v :: rest /\
                 Forall (refused good) skipped /\ good v = true /\
                 out' = out ++ retries prompt (length skipped) ++ [Str prompt]).
    { intros Ha Hnext.
      destruct (IH _ Hnext) as (skipped & -> & Hsk & Hv & ->).
      exists (a :: skipped). repeat split; try assumption.
      - now constructor.
      - cbn [length retries]. rewrite <- !app_assoc. reflexivity. }
    destruct a as [w |].
    + destruct (good w) eqn:Hw.
      * inversion Hread; subst. exists []. repeat split; [constructor | assumption].
      * apply Hrec; assumption.
    + apply Hrec; [exact I | assumption].
Qed.

(** ** Recording an expenditure *)

Lemma recordExpenditure_declined (u : User) (t t1 : Terminal) (a : Q) :
  getNumericInput_double "Enter expenditure amount: " t = Some (a, t1) ->
  balance u - a < MINIMUM_BALANCE ->
  recordExpenditure u t = Some (u, emit declined_expenditure t1).
Proof.
  intros Hread Hlow. unfold recordExpenditure, bind. rewrite Hread.
  destruct (Qlt_le_dec (balance u - a) MINIMUM_BALANCE) as [_ | Hge].
  - reflexivity.
  - exfalso. apply (Qlt_not_le _ _ Hlow Hge).
Qed.

Lemma recordExpenditure_committed (u : User) (t t1 : Terminal) (a : Q) :
  getNumericInput_double "Enter expenditure amount: " t = Some (a, t1) ->
  ~ balance u - a < MINIMUM_BALANCE ->
  exists desc t2,
    recordExpenditure u t =
    Some ({| manager := addTransaction (Expenditure a desc) (manager u);
             balance := balance u - a |}, t2).
Proof.
  intros Hread Hok. unfold recordExpenditure, bind. rewrite Hread.
  destruct (Qlt_le_dec (balance u - a) MINIMUM_BALANCE) as [Hlow | _].
  - contradiction.
  - destruct (getStringInput_total "Enter description (e.g., Groceries): " t1)
      as (desc & t2 & Hdesc).
    rewrite Hdesc. exists desc. eexists. reflexivity.
Qed.

(** Whatever [recordExpenditure] returns is one of the two outcomes. *)
Lemma recordExpenditure_inv (u u' : User) (t t' : Terminal) :
  recordExpenditure u t = Some (u', t') ->
  u' = u \/
  exists a desc,
    ~ balance u - a < MINIMUM_BALANCE /\
    u' = {| manager := addTransaction (Expenditure a desc) (manager u);
            balance := balance u - a |}.
Proof.
  unfold recordExpenditure, bind. intros H.
  destruct (getNumericInput_double _ t) as [[a t1] |]; [| discriminate].
  destruct (Qlt_le_dec (balance u - a) MINIMUM_BALANCE) as [Hlow | Hge].
  - left. unfold print, ret in H. now inversion H.
  - right. destruct (getStringInput _ t1) as [[desc t2] |]; [| discriminate].
    unfold print, ret in H. inversion H; subst.
    exists a, desc. split; [| reflexivity]. now apply Qle_not_lt.
Qed.

(** ** Making an investment *)

Section MakeInvestment.

Variables (u : User) (t t1 : Terminal) (choice : Z).

(** The type selected at the submenu. *)
Hypothesis Hchoice :
  getNumericInput_int "Choose investment type: " (emit investment_menu t)
  = Some (choice, t1).

Lemma makeInvestment_cancel :
  choice = 0%Z -> makeInvestment u t = Some (u, t1).
Proof.
  intros ->. unfold makeInvestment, bind, print.
  change (emit _ t) with (emit investment_menu t). rewrite Hchoice.
  reflexivity.
Qed.

Variables (t2 : Terminal) (a : Q).

(** The principal typed next. *)
Hypothesis Hprincipal :
  getNumericInput_double "Enter principal amount to invest: " t1 = Some (a, t2).

Lemma makeInvestment_declined :
  choice <> 0%Z ->
  balance u - a < MINIMUM_BALANCE ->
  makeInvestment u t = Some (u, emit declined_investment t2).
Proof.
  intros Hnz Hlow. unfold makeInvestment, bind, print.
  change (emit _ t) with (emit investment_menu t). rewrite Hchoice.
  apply Z.eqb_neq in Hnz. rewrite Hnz, Hprincipal.
  destruct (Qlt_le_dec (balance u - a) MINIMUM_BALANCE) as [_ | Hge].
  - reflexivity.
  - exfalso. apply (Qlt_not_le _ _ Hlow Hge).
Qed.

Variables (t3 : Terminal) (d : Z).

(** The duration typed after a principal that passes the guard. *)
Hypothesis Hduration :
  getNumericInput_int "Enter duration in years: " t2 = Some (d, t3).

Lemma makeInvestment_SIP (t4 : Terminal) (m : Q) :
  choice = 1%Z ->
  ~ balance u - a < MINIMUM_BALANCE ->
  getNumericInput_double "Enter monthly investment amount: " t3 = Some (m, t4) ->
  makeInvestment u t =
  Some ({| manager := addInvestment (SIP a d m) (manager u);
           balance := balance u - a |},
        emit [Str "SIP investment made successfully."; Endl] t4).
Proof.
  intros -> Hok Hmonthly. unfold makeInvestment, bind, print.
  change (emit _ t) with (emit investment_menu t). rewrite Hchoice.
  cbn [Z.eqb Pos.eqb]. rewrite Hprincipal.
  destruct (Qlt_le_dec (balance u - a) MINIMUM_BALANCE) as [Hlow | _];
    [contradiction |].
  rewrite Hduration, Hmonthly. reflexivity.
Qed.

Lemma makeInvestment_FD :
  choice = 2%Z ->
  ~ balance u - a < MINIMUM_BALANCE ->
  makeInvestment u t =
  Some ({| manager := addInvestment (FD a d) (manager u);
           balance := balance u - a |},
        emit [Str "FD investment made successfully."; Endl] t3).
Proof.
  intros -> Hok. unfold makeInvestment, bind, print.
  change (emit _ t) with (emit investment_menu t). rewrite Hchoice.
  cbn [Z.eqb Pos.eqb]. rewrite Hprincipal.
  destruct (Qlt_le_dec (balance u - a) MINIMUM_BALANCE) as [Hlow | _];
    [contradiction |].
  rewrite Hduration. reflexivity.
Qed.

Lemma makeInvestment_invalid_type :
  choice <> 0%Z -> choice <> 1%Z -> choice <> 2%Z ->
  ~ balance u - a < MINIMUM_BALANCE ->
  makeInvestment u t =
  Some (u, emit [Str "Invalid investment type."; Endl] t3).
Proof.
  intros H0 H1 H2 Hok. unfold makeInvestment, bind, print.
  change (emit _ t) with (emit investment_menu t). rewrite Hchoice.
  apply Z.eqb_neq in H0, H1, H2. rewrite H0, Hprincipal.
  destruct (Qlt_le_dec (balance u - a) MINIMUM_BALANCE) as [Hlow | _];
    [contradiction |].
  rewrite Hduration, H1, H2. reflexivity.
Qed.

End MakeInvestment.

(** Whatever [makeInvestment] returns is one of its outcomes. *)
Lemma makeInvestment_inv (u u' : User) (t t' : Terminal) :
  makeInvestment u t = Some (u', t') ->
  u' = u \/
  exists a d,
    ~ balance u - a < MINIMUM_BALANCE /\
    ((exists m, u' = {| manager := addInvestment (SIP a d m) (manager u);
                        balance := balance u - a |}) \/
     u' = {| manager := addInvestment (FD a d) (manager u);
             balance := balance u - a |}).
Proof.
  unfold makeInvestment, bind, print, ret. intros H.
  destruct (getNumericInput_int _ _) as [[c t1] |]; [| discriminate].
  destruct (c =? 0)%Z; [left; now inversion H |].
  destruct (getNumericInput_double _ t1) as [[a t2] |]; [| discriminate].
  destruct (Qlt_le_dec (balance u - a) MINIMUM_BALANCE) as [Hlow | Hge];
    [left; now inversion H |].
  apply Qle_not_lt in Hge.
  destruct (getNumericInput_int _ t2) as [[d t3] |]; [| discriminate].
  destruct (c =? 1)%Z.
  - destruct (getNumericInput_double _ t3) as [[m t4] |]; [| discriminate].
    inversion H; subst. right. exists a, d. split; [assumption |].
    left. now exists m.
  - destruct (c =? 2)%Z; inversion H; subst.
    + right. exists a, d. split; [assumption |]. now right.
    + now left.
Qed.

(** ** Recording income *)

Lemma recordIncome_recorded (u : User) (t t1 : Terminal) (a : Q) :
  getNumericInput_double "Enter income amount: " t = Some (a, t1) ->
  exists desc t2,
    recordIncome u t =
    Some ({| manager := addTransaction (Income a desc) (manager u);
             balance := balance u + a |},
          emit [Str "Income recorded successfully."; Endl] t2).
Proof.
  intros Hread. unfold recordIncome, bind. rewrite Hread.
  destruct (getStringInput_total "Enter description (e.g., Salary): " t1)
    as (desc & t2 & Hdesc).
  rewrite Hdesc. exists desc, t2. reflexivity.
Qed.

Lemma recordIncome_inv (u u' : User) (t t' : Terminal) :
  recordIncome u t = Some (u', t') ->
  exists a desc,
    u' = {| manager := addTransaction (Income a desc) (manager u);
            balance := balance u + a |}.
Proof.
  unfold recordIncome, bind, print, ret. intros H.
  destruct (getNumericInput_double _ t) as [[a t1] |]; [| discriminate].
  destruct (getStringInput _ t1) as [[desc t2] |]; [| discriminate].
  inversion H. now exists a, desc.
Qed.

(** ** The balance guard *)



(** A SIP or FD selection whose principal passes the guard is committed, as
    soon as the answers the chosen type asks for are typed. *)
Lemma makeInvestment_committed (u : User) (t t1 t2 t3 : Terminal)
    (choice d : Z) (a : Q) :
  getNumericInput_int "Choose investment type: " (emit investment_menu t)
  = Some (choice, t1) ->
  choice = 1%Z \/ choice = 2%Z ->
  getNumericInput_double "Enter principal amount to invest: " t1
  = Some (a, t2) ->
  ~ balance u - a < MINIMUM_BALANCE ->
  getNumericInput_int "Enter duration in years: " t2 = Some (d, t3) ->
  (choice = 1%Z ->
   exists m t4,
     getNumericInput_double "Enter monthly investment amount: " t3
     = Some (m, t4)) ->
  exists rec u' t',
    makeInvestment u t = Some (u', t') /\
    balance u' = balance u - a /\
    one_investment_appended rec u u' /\
    getPrincipal rec = a /\ getDurationYears rec = d.
Proof.
  intros Hchoice [Hsip | Hfd] Hprincipal Hok Hduration Hmonthly.
  - destruct (Hmonthly Hsip) as (m & t4 & Hm).
    exists (SIP a d m). do 2 eexists. split.
    + apply (makeInvestment_SIP u t t1 choice Hchoice t2 a Hprincipal
               t3 d Hduration t4 m Hsip Hok Hm).
    + repeat split.
  - exists (FD a d). do 2 eexists. split.
    + apply (makeInvestment_FD u t t1 choice Hchoice t2 a Hprincipal
               t3 d Hduration Hfd Hok).
    + repeat split.
Qed.

(** C2. After a committed (not rejected) expenditure or investment the
    balance is at least [MINIMUM_BALANCE], which is 1000; recording income
    compares the resulting balance with nothing: an income that leaves the
    balance under 1000 is recorded all the same. *)
Theorem minimum_balance_after_commit :
  MINIMUM_BALANCE == 1000 /\
  (forall u t u' t',
     recordExpenditure u t = Some (u', t') ->
     ~ rejected u u' -> MINIMUM_BALANCE <= balance u') /\
  (forall u t u' t',
     makeInvestment u t = Some (u', t') ->
     ~ rejected u u' -> MINIMUM_BALANCE <= balance u') /\
  (forall u t t1 a,
     getNumericInput_double "Enter income amount: " t = Some (a, t1) ->
     balance u + a < MINIMUM_BALANCE ->
     exists desc u' t',
       recordIncome u t = Some (u', t') /\
       balance u' = balance u + a /\
       one_transaction_appended (Income a desc) u u').
Proof.
  split; [reflexivity |]. split; [| split].
  - intros u t u' t' Hrun Hcommit.
    destruct (recordExpenditure_inv u u' t t' Hrun) as [-> | (a & desc & Hok & ->)].
    + now elim Hcommit.
    + cbn [balance]. now apply Qnot_lt_le.
  - intros u t u' t' Hrun Hcommit.
    destruct (makeInvestment_inv u u' t t' Hrun)
      as [-> | (a & d & Hok & [(m & ->) | ->])].
    + now elim Hcommit.
    + cbn [balance]. now apply Qnot_lt_le.
    + cbn [balance]. now apply Qnot_lt_le.
  - intros u t t1 a Hread _.
    destruct (recordIncome_recorded u t t1 a Hread) as (desc & t2 & Hrun).
    exists desc. do 2 eexists. split; [exact Hrun |]. repeat split.
Qed.

(** The expenditure of 3000 from 5000 is committed and leaves 2000; an
    income of -4500 is recorded and leaves 500. *)
Lemma minimum_balance_after_commit_witness :
  (exists u' t',
     recordExpenditure account0 (typed [] [3000] ["Rent"%string])
     = Some (u', t') /\
     ~ rejected account0 u' /\ MINIMUM_BALANCE <= balance u') /\
  (exists desc u' t',
     recordIncome account0 (typed [] [-4500] []) = Some (u', t') /\
     balance u' = 5000 + -4500 /\
     one_transaction_appended (Income (-4500) desc) account0 u').
Proof.
  destruct minimum_balance_after_commit as (_ & Hexp & _ & Hinc). split.
  - do 2 eexists. split; [lazy; reflexivity |].
    split; [intros Hrej; discriminate Hrej |].
    eapply (Hexp account0 (typed [] [3000] ["Rent"%string])).
    + lazy; reflexivity.
    + intros Hrej; discriminate Hrej.
  - eapply (Hinc account0 (typed [] [-4500] [])).
    + reflexivity.
    + reflexivity.
Defined.

(** ** Income *)

(** C5. For every income amount [a >= 0], recording income succeeds: the
    balance increases by exactly [a], exactly one Income record of amount [a]
    is appended to the transactions, the investments are untouched, and the
    success is reported. *)
Theorem income_recorded (u : User) (a : Q) (t t1 : Terminal) :
  0 <= a ->
  getNumericInput_double "Enter income amount: " t = Some (a, t1) ->
  exists desc u' t',
    recordIncome u t = Some (u', t') /\
    balance u' = balance u + a /\
    transactions (manager u') = transactions (manager u) ++ [Income a desc] /\
    getAmount (Income a desc) = a /\
    investments (manager u') = investments (manager u) /\
    reports [Str "Income recorded successfully."; Endl] t'.
Proof.
  intros _ Hread.
  destruct (recordIncome_recorded u t t1 a Hread) as (desc & t2 & Hrun).
  exists desc. do 2 eexists. split; [exact Hrun |].
  repeat split. apply reports_emit.
Qed.

Lemma income_recorded_witness :
  0 <= 250 /\
  exists desc u' t',
    recordIncome account0 (typed [] [250] ["Salary"%string]) = Some (u', t') /\
    balance u' = 5000 + 250 /\
    transactions (manager u') = [] ++ [Income 250 desc] /\
    getAmount (Income 250 desc) = 250 /\
    investments (manager u') = [] /\
    reports [Str "Income recorded successfully."; Endl] t'.
Proof.
  split; [discriminate |].
  apply (income_recorded account0 250 (typed [] [250] ["Salary"%string])
           (emit [Str "Enter income amount: "] (typed [] [] ["Salary"%string]))).
  - discriminate.
  - reflexivity.
Defined.

(** ** Amounts are taken as typed *)



(** ** Insertion order of the ledger *)

Lemma apply_ops_transactions (ops : list ledger_op) (fm : FinanceManager) :
  getTransactions (apply_ops ops fm)
  = getTransactions fm ++ added_transactions ops.
Proof.
  revert fm. induction ops as [| op ops IH]; intros fm.
  - cbn. now rewrite app_nil_r.
  - change (apply_ops (op :: ops) fm) with (apply_ops ops (apply_op fm op)).
    rewrite IH. destruct op as [tr | inv]; cbn.
    + unfold getTransactions; cbn. now rewrite <- app_assoc.
    + reflexivity.
Qed.

Lemma apply_ops_investments (ops : list ledger_op) (fm : FinanceManager) :
  getInvestments (apply_ops ops fm)
  = getInvestments fm ++ added_investments ops.
Proof.
  revert fm. induction ops as [| op ops IH]; intros fm.
  - cbn. now rewrite app_nil_r.
  - change (apply_ops (op :: ops) fm) with (apply_ops ops (apply_op fm op)).
    rewrite IH. destruct op as [tr | inv]; cbn.
    + reflexivity.
    + unfold getInvestments; cbn. now rewrite <- app_assoc.
Qed.

(** C6. For every interleaving [ops] of [addTransaction] and [addInvestment]
    calls on a new ledger, [getTransactions] is exactly the transactions added,
    in insertion order, and [getInvestments] exactly the investments added, in
    insertion order; on a ledger that already holds records the added ones
    follow them.  The two display loops walk the same sequences. *)
Theorem insertion_order :
  forall ops : list ledger_op,
    getTransactions (apply_ops ops FinanceManager_new) = added_transactions ops /\
    getInvestments (apply_ops ops FinanceManager_new) = added_investments ops /\
    (forall fm,
       getTransactions (apply_ops ops fm)
       = getTransactions fm ++ added_transactions ops /\
       getInvestments (apply_ops ops fm)
       = getInvestments fm ++ added_investments ops) /\
    displayTransactionHistory (apply_ops ops FinanceManager_new)
    = displayTransactionHistory FinanceManager_new
      ++ flat_map Transaction_display (added_transactions ops) /\
    displayInvestmentPortfolio (apply_ops ops FinanceManager_new)
    = displayInvestmentPortfolio FinanceManager_new
      ++ flat_map Investment_display (added_investments ops).
Proof.
  intros ops.
  pose proof (apply_ops_transactions ops FinanceManager_new) as Ht.
  pose proof (apply_ops_investments ops FinanceManager_new) as Hi.
  cbn [getTransactions getInvestments FinanceManager_new transactions
       investments app] in Ht, Hi.
  unfold getTransactions, getInvestments in *.
  repeat split.
  - exact Ht.
  - exact Hi.
  - apply apply_ops_transactions.
  - apply apply_ops_investments.
  - unfold displayTransactionHistory. rewrite Ht. reflexivity.
  - unfold displayInvestmentPortfolio. rewrite Hi. reflexivity.
Qed.

(** ** The menu loop *)

Lemma iteration_eq (u : User) (t : Terminal) :
  iteration u t =
  match getNumericInput_int "Enter choice: " (emit (menu u) t) with
  | Some (choice, t1) =>
      match dispatch choice u t1 with
      | Some (u1, t2) => Some ((choice, u1), t2)
      | None => None
      end
  | None => None
  end.
Proof.
  unfold iteration, bind, print, ret.
  destruct (getNumericInput_int _ _) as [[choice t1] |]; [| reflexivity].
  destruct (dispatch choice u t1) as [[u1 t2] |]; reflexivity.
Qed.

Lemma run_loop_exit (fuel : nat) (u : User) (t : Terminal) :
  run_loop fuel 0 u t = Some (u, t).
Proof. destruct fuel; reflexivity. Qed.

Lemma run_loop_pass (fuel : nat) (prev : Z) (u : User) (t : Terminal) :
  prev <> 0%Z ->
  run_loop (S fuel) prev u t =
  match iteration u t with
  | Some ((choice, u1), t1) => run_loop fuel choice u1 t1
  | None => None
  end.
Proof.
  intros Hprev. apply Z.eqb_neq in Hprev. cbn [run_loop]. rewrite Hprev.
  unfold bind. destruct (iteration u t) as [[[choice u1] t1] |]; reflexivity.
Qed.

Lemma run_loop_dry (prev : Z) (u : User) (t : Terminal) :
  prev <> 0%Z -> run_loop 0 prev u t = None.
Proof.
  intros Hprev. apply Z.eqb_neq in Hprev. cbn [run_loop]. now rewrite Hprev.
Qed.

(** More passes allowed never change a result already reached. *)
Lemma run_loop_more_fuel (fuel extra : nat) (prev : Z) (u : User) (t : Terminal)
    (r : User * Terminal) :
  run_loop fuel prev u t = Some r -> run_loop (fuel + extra) prev u t = Some r.
Proof.
  revert prev u t. induction fuel as [| fuel IH]; intros prev u t Hrun.
  - destruct (Z.eq_dec prev 0) as [-> | Hprev].
    + rewrite run_loop_exit in *. exact Hrun.
    + rewrite run_loop_dry in Hrun by assumption. discriminate.
  - destruct (Z.eq_dec prev 0) as [-> | Hprev].
    + rewrite run_loop_exit in *. exact Hrun.
    + cbn [Nat.add]. rewrite run_loop_pass in * by assumption.
      destruct (iteration u t) as [[[choice u1] t1] |]; [| discriminate].
      now apply IH.
Qed.

(** *** Every pass reads the selection: the integer attempts run down *)

Lemma getNumericInput_loop_shorter {T : Type} (good : T -> bool)
    (prompt : string) (attempts rest : list (option T)) (out out' : list chunk)
    (value : T) :
  getNumericInput_loop good prompt attempts out = Some (value, rest, out') ->
  (length rest < length attempts)%nat.
Proof.
  revert out. induction attempts as [| a attempts IH]; intros out Hread.
  - discriminate.
  - cbn [getNumericInput_loop] in Hread. cbn [length].
    destruct a as [v |]; [destruct (good v) |].
    + inversion Hread; subst. lia.
    + specialize (IH _ Hread). lia.
    + specialize (IH _ Hread). lia.
Qed.

Lemma getNumericInput_int_consumes (prompt : string) (t t' : Terminal) (z : Z) :
  getNumericInput_int prompt t = Some (z, t') ->
  (length (ints t') < length (ints t))%nat.
Proof.
  unfold getNumericInput_int. intros Hread.
  destruct (getNumericInput_loop _ _ _ _) as [[[v rest] out] |] eqn:Hloop;
    [| discriminate].
  inversion Hread; subst. cbn [ints].
  apply (getNumericInput_loop_shorter _ _ _ _ _ _ _ Hloop).
Qed.

Lemma getNumericInput_double_ints (prompt : string) (t t' : Terminal) (q : Q) :
  getNumericInput_double prompt t = Some (q, t') -> ints t' = ints t.
Proof.
  unfold getNumericInput_double. intros Hread.
  destruct (getNumericInput_loop _ _ _ _) as [[[v rest] out] |];
    [| discriminate].
  now inversion Hread.
Qed.

Lemma getStringInput_ints (prompt : string) (t t' : Terminal) (s : string) :
  getStringInput prompt t = Some (s, t') -> ints t' = ints t.
Proof.
  unfold getStringInput. intros Hread.
  destruct (lines t); now inversion Hread.
Qed.

Lemma recordIncome_ints (u u' : User) (t t' : Terminal) :
  recordIncome u t = Some (u', t') -> ints t' = ints t.
Proof.
  unfold recordIncome, bind, print, ret. intros H.
  destruct (getNumericInput_double _ t) as [[a t1] |] eqn:Ha; [| discriminate].
  destruct (getStringInput _ t1) as [[desc t2] |] eqn:Hd; [| discriminate].
  inversion H; subst. cbn [ints emit].
  rewrite (getStringInput_ints _ _ _ _ Hd).
  apply (getNumericInput_double_ints _ _ _ _ Ha).
Qed.

Lemma recordExpenditure_ints (u u' : User) (t t' : Terminal) :
  recordExpenditure u t = Some (u', t') -> ints t' = ints t.
Proof.
  unfold recordExpenditure, bind, print, ret. intros H.
  destruct (getNumericInput_double _ t) as [[a t1] |] eqn:Ha; [| discriminate].
  apply getNumericInput_double_ints in Ha.
  destruct (Qlt_le_dec _ _).
  - inversion H; subst. exact Ha.
  - destruct (getStringInput _ t1) as [[desc t2] |] eqn:Hd; [| discriminate].
    inversion H; subst. cbn [ints emit].
    now rewrite (getStringInput_ints _ _ _ _ Hd).
Qed.

Lemma makeInvestment_ints (u u' : User) (t t' : Terminal) :
  makeInvestment u t = Some (u', t') ->
  (length (ints t') <= length (ints t))%nat.
Proof.
  unfold makeInvestment, bind, print, ret. intros H.
  destruct (getNumericInput_int _ _) as [[c t1] |] eqn:Hc; [| discriminate].
  apply getNumericInput_int_consumes in Hc. cbn [ints emit] in Hc.
  destruct (c =? 0)%Z; [inversion H; subst; lia |].
  destruct (getNumericInput_double _ t1) as [[a t2] |] eqn:Ha; [| discriminate].
  apply getNumericInput_double_ints in Ha.
  apply (f_equal (@length _)) in Ha.
  destruct (Qlt_le_dec _ _); [inversion H; subst; cbn [ints emit]; lia |].
  destruct (getNumericInput_int _ t2) as [[d t3] |] eqn:Hd; [| discriminate].
  apply getNumericInput_int_consumes in Hd.
  destruct (c =? 1)%Z.
  - destruct (getNumericInput_double _ t3) as [[m t4] |] eqn:Hm;
      [| discriminate].
    apply getNumericInput_double_ints in Hm.
    apply (f_equal (@length _)) in Hm.
    inversion H; subst. cbn [ints emit]. lia.
  - destruct (c =? 2)%Z; inversion H; subst; cbn [ints emit]; lia.
Qed.

Lemma dispatch_ints (choice : Z) (u u' : User) (t t' : Terminal) :
  dispatch choice u t = Some (u', t') ->
  (length (ints t') <= length (ints t))%nat.
Proof.
  assert (Hquiet : forall cs,
             bind (print cs) (fun _ => ret u) t = Some (u', t') ->
             (length (ints t') <= length (ints t))%nat).
  { intros cs H. inversion H; subst. cbn [ints emit]. lia. }
  destruct choice as [| p | p]; cbn [dispatch]; [apply Hquiet | | apply Hquiet].
  do 3 (try (destruct p as [p | p |]; try apply Hquiet)).
  - apply makeInvestment_ints.
  - intros H. now rewrite (recordExpenditure_ints _ _ _ _ H).
  - intros H. now rewrite (recordIncome_ints _ _ _ _ H).
Qed.

Lemma iteration_consumes (u u1 : User) (t t1 : Terminal) (c : Z) :
  iteration u t = Some ((c, u1), t1) ->
  (length (ints t1) < length (ints t))%nat.
Proof.
  rewrite iteration_eq.
  destruct (getNumericInput_int _ _) as [[choice t0] |] eqn:Hc; [| discriminate].
  apply getNumericInput_int_consumes in Hc. cbn [ints emit] in Hc.
  destruct (dispatch choice u t0) as [[u' t'] |] eqn:Hd; [| discriminate].
  apply dispatch_ints in Hd. intros H. inversion H; subst. lia.
Qed.

(** With more passes allowed than integer attempts are left, the outcome no
    longer depends on the allowance: a run that has not returned by then waits
    for input for ever. *)
Lemma run_loop_decided (fuel fuel' : nat) (prev : Z) (u : User) (t : Terminal) :
  (length (ints t) < fuel)%nat -> (fuel <= fuel')%nat ->
  run_loop fuel' prev u t = run_loop fuel prev u t.
Proof.
  revert fuel' prev u t.
  induction fuel as [| fuel IH]; intros fuel' prev u t Hlen Hle; [lia |].
  destruct fuel' as [| fuel']; [lia |].
  destruct (Z.eq_dec prev 0) as [-> | Hprev].
  - now rewrite !run_loop_exit.
  - rewrite !run_loop_pass by assumption.
    destruct (iteration u t) as [[[c u1] t1] |] eqn:Hpass; [| reflexivity].
    apply iteration_consumes in Hpass. apply IH; lia.
Qed.

Lemma run_loop_sound (fuel : nat) (prev : Z) (u u' : User) (t t' : Terminal) :
  prev <> 0%Z ->
  run_loop fuel prev u t = Some (u', t') ->
  exists cs,
    (length cs < fuel)%nat /\ Forall nonzero cs /\
    passes u t (cs ++ [0%Z]) u' t'.
Proof.
  revert prev u t. induction fuel as [| fuel IH]; intros prev u t Hprev Hrun.
  - rewrite run_loop_dry in Hrun by assumption. discriminate.
  - rewrite run_loop_pass in Hrun by assumption.
    destruct (iteration u t) as [[[c u1] t1] |] eqn:Hpass; [| discriminate].
    destruct (Z.eq_dec c 0) as [-> | Hc].
    + rewrite run_loop_exit in Hrun. inversion Hrun; subst.
      exists []. split; [cbn; lia |]. split; [constructor |].
      cbn. econstructor; [exact Hpass | constructor].
    + destruct (IH c u1 t1 Hc Hrun) as (cs & Hlen & Hnz & Hcs).
      exists (c :: cs). split; [cbn; lia |].
      split; [constructor; assumption |].
      cbn. econstructor; [exact Hpass | exact Hcs].
Qed.

Lemma run_loop_complete (cs : list Z) (prev : Z) (u u' : User) (t t' : Terminal) :
  prev <> 0%Z ->
  Forall nonzero cs ->
  passes u t (cs ++ [0%Z]) u' t' ->
  run_loop (S (length cs)) prev u t = Some (u', t').
Proof.
  revert prev u t. induction cs as [| c cs IH]; intros prev u t Hprev Hnz Hcs.
  - cbn in Hcs. inversion Hcs as [| ? ? ? ? ? ? ? ? Hpass Hrest]; subst.
    inversion Hrest; subst.
    rewrite run_loop_pass by assumption. rewrite Hpass. apply run_loop_exit.
  - cbn in Hcs. inversion Hcs as [| ? ? ? ? ? ? ? ? Hpass Hrest]; subst.
    inversion Hnz as [| ? ? Hc Hnz']; subst.
    rewrite run_loop_pass by assumption. rewrite Hpass.
    cbn [length]. apply (IH c); assumption.
Qed.

(** A pass is the selection read at the prompt and the [switch] on it. *)
Lemma iteration_iff (u u1 : User) (t t1 : Terminal) (c : Z) :
  iteration u t = Some ((c, u1), t1) <->
  exists t0,
    getNumericInput_int "Enter choice: " (emit (menu u) t) = Some (c, t0) /\
    dispatch c u t0 = Some (u1, t1).
Proof.
  rewrite iteration_eq. split.
  - destruct (getNumericInput_int _ _) as [[choice t0] |]; [| discriminate].
    destruct (dispatch choice u t0) as [[u2 t2] |] eqn:Hd; [| discriminate].
    intros H. injection H as -> -> ->. now exists t0.
  - intros (t0 & -> & ->). reflexivity.
Qed.

Lemma passes_menu_session (u u' : User) (t t' : Terminal) (cs : list Z) :
  passes u t cs u' t' <-> menu_session u t cs u' t'.
Proof.
  split.
  - induction 1 as [| u u1 u2 t t1 t2 c cs Hpass _ IH]; [constructor |].
    apply iteration_iff in Hpass as (t0 & Hread & Hd).
    econstructor; eassumption.
  - induction 1 as [| u u1 u2 t t0 t1 t2 c cs Hread Hd _ IH]; [constructor |].
    econstructor; [| exact IH]. apply iteration_iff. now exists t0.
Qed.

(** The selection 0 at the prompt: the farewell, and the account as it was. *)
Lemma dispatch_exit (u : User) (t : Terminal) :
  dispatch 0 u t = Some (u, emit goodbye t).
Proof. reflexivity. Qed.

(** With no attempt at an integer that the stream survives, no selection is
    ever read and the loop is never left. *)
Lemma run_loop_waits (fuel : nat) (prev : Z) (u : User) (t : Terminal) :
  prev <> 0%Z ->
  Forall (refused int_fits) (ints t) ->
  run_loop fuel prev u t = None.
Proof.
  intros Hprev Hnone. destruct fuel as [| fuel].
  - now apply run_loop_dry.
  - rewrite run_loop_pass by assumption. rewrite iteration_eq.
    unfold getNumericInput_int. cbn [ints emit screen].
    apply (getNumericInput_loop_none int_fits "Enter choice: " (ints t)
             (screen t ++ menu u)) in Hnone.
    now rewrite Hnone.
Qed.

(** C9. The loop of [run] ends when and only when selection 0 is processed.
    A pass of the loop is the number [getNumericInput<int>] returns at
    "Enter choice: " and the [switch] on that number.  A run returns exactly
    when the selections so read and dispatched are some non-zero ones followed
    by a 0.  Reading 0 leaves the loop at once, with the farewell written and
    the account untouched; reading any other number, valid or not, is followed
    by the loop again and cannot end the run.  A 0 that no prompt accepts, cut
    off by the end of the input or never typed, is no selection: the run does
    not return.  When [run] returns, [main] returns 0. *)
Theorem loop_ends_at_zero :
  (forall u t u' t',
     (exists fuel, run fuel u t = Some (u', t')) <->
     (exists cs, Forall nonzero cs /\ menu_session u t (cs ++ [0%Z]) u' t')) /\
  (forall u t c u1 t1,
     iteration u t = Some ((c, u1), t1) <->
     exists t0,
       getNumericInput_int "Enter choice: " (emit (menu u) t) = Some (c, t0) /\
       dispatch c u t0 = Some (u1, t1)) /\
  (forall fuel prev u t t0,
     prev <> 0%Z ->
     getNumericInput_int "Enter choice: " (emit (menu u) t) = Some (0%Z, t0) ->
     run_loop (S fuel) prev u t = Some (u, emit goodbye t0)) /\
  (forall fuel prev u t c t0,
     prev <> 0%Z ->
     getNumericInput_int "Enter choice: " (emit (menu u) t) = Some (c, t0) ->
     c <> 0%Z ->
     run_loop 1 prev u t = None /\
     (dispatch c u t0 = None -> run_loop (S fuel) prev u t = None) /\
     (forall u1 t1,
        dispatch c u t0 = Some (u1, t1) ->
        run_loop (S (S fuel)) prev u t =
        match getNumericInput_int "Enter choice: " (emit (menu u1) t1) with
        | Some (c', t2) =>
            match dispatch c' u1 t2 with
            | Some (u2, t3) => run_loop fuel c' u2 t3
            | None => None
            end
        | None => None
        end)) /\
  (forall fuel u t,
     Forall (refused int_fits) (ints t) -> run fuel u t = None) /\
  (forall fuel u t z,
     ints t = [attempt_of (Number z false)] -> run fuel u t = None) /\
  (forall u t u' t',
     (exists fuel, run fuel u t = Some (u', t')) <->
     (exists cs, Forall nonzero cs /\ passes u t (cs ++ [0%Z]) u' t')) /\
  (forall fuel prev u t u1 t1,
     prev <> 0%Z ->
     iteration u t = Some ((0%Z, u1), t1) ->
     run_loop (S fuel) prev u t = Some (u1, t1)) /\
  (forall fuel prev u t c u1 t1,
     prev <> 0%Z -> c <> 0%Z ->
     iteration u t = Some ((c, u1), t1) ->
     run_loop 1 prev u t = None /\
     run_loop (S (S fuel)) prev u t =
     match iteration u1 t1 with
     | Some ((c', u2), t2) => run_loop fuel c' u2 t2
     | None => None
     end) /\
  (forall fuel t,
     main fuel t =
     match run fuel (User_new 5000)
             (emit [Str "--- Welcome to your Personal Finance Management System! ---";
                    Endl] t)
     with
     | Some (_, t') => Some (0%Z, t')
     | None => None
     end) /\
  (forall fuel t code t', main fuel t = Some (code, t') -> code = 0%Z).
Proof.
  assert (Hstart : (-1)%Z <> 0%Z) by discriminate.
  assert (Hmain : forall fuel t,
     main fuel t =
     match run fuel (User_new 5000)
             (emit [Str "--- Welcome to your Personal Finance Management System! ---";
                    Endl] t)
     with
     | Some (_, t') => Some (0%Z, t')
     | None => None
     end).
  { intros fuel t. unfold main, bind, print, ret.
    destruct (run fuel _ _) as [[u' t'] |]; reflexivity. }
  assert (Hiff : forall u t u' t',
     (exists fuel, run fuel u t = Some (u', t')) <->
     (exists cs, Forall nonzero cs /\ passes u t (cs ++ [0%Z]) u' t')).
  { intros u t u' t'. split.
    - intros (fuel & Hrun).
      destruct (run_loop_sound fuel (-1) u u' t t' Hstart Hrun) as (cs & _ & H).
      now exists cs.
    - intros (cs & Hnz & Hcs). exists (S (length cs)).
      now apply run_loop_complete. }
  assert (Hpass : forall fuel prev u t c t0 u1 t1,
     prev <> 0%Z ->
     getNumericInput_int "Enter choice: " (emit (menu u) t) = Some (c, t0) ->
     dispatch c u t0 = Some (u1, t1) ->
     run_loop (S fuel) prev u t = run_loop fuel c u1 t1).
  { intros fuel prev u t c t0 u1 t1 Hprev Hread Hd.
    rewrite run_loop_pass by assumption.
    now rewrite iteration_eq, Hread, Hd. }
  split; [| split; [| split; [| split; [| split; [| split; [| split;
    [| split; [| split; [| split]]]]]]]]].
  - intros u t u' t'. rewrite Hiff. split; intros (cs & Hnz & Hcs); exists cs;
      (split; [exact Hnz | now apply passes_menu_session]).
  - intros u t c u1 t1. apply iteration_iff.
  - intros fuel prev u t t0 Hprev Hread.
    rewrite (Hpass fuel prev u t 0%Z t0 u (emit goodbye t0) Hprev Hread
               (dispatch_exit u t0)).
    apply run_loop_exit.
  - intros fuel prev u t c t0 Hprev Hread Hc. split; [| split].
    + rewrite run_loop_pass by assumption. rewrite iteration_eq, Hread.
      destruct (dispatch c u t0) as [[u1 t1] |]; [| reflexivity].
      now apply run_loop_dry.
    + intros Hd. rewrite run_loop_pass by assumption.
      now rewrite iteration_eq, Hread, Hd.
    + intros u1 t1 Hd.
      rewrite (Hpass (S fuel) prev u t c t0 u1 t1 Hprev Hread Hd).
      rewrite run_loop_pass by assumption. rewrite iteration_eq.
      destruct (getNumericInput_int "Enter choice: " (emit (menu u1) t1))
        as [[c' t2] |]; [| reflexivity].
      destruct (dispatch c' u1 t2) as [[u2 t3] |]; reflexivity.
  - intros fuel u t Hnone. now apply run_loop_waits.
  - intros fuel u t z Hints. apply run_loop_waits; [exact Hstart |].
    rewrite Hints. repeat constructor.
  - exact Hiff.
  - intros fuel prev u t u1 t1 Hprev Hit.
    rewrite run_loop_pass by assumption. rewrite Hit. apply run_loop_exit.
  - intros fuel prev u t c u1 t1 Hprev Hc Hit. split.
    + rewrite run_loop_pass by assumption. rewrite Hit.
      now apply run_loop_dry.
    + rewrite run_loop_pass by assumption. rewrite Hit.
      now apply run_loop_pass.
  - exact Hmain.
  - intros fuel t code t' Hrun. rewrite Hmain in Hrun.
    destruct (run fuel _ _) as [[u' t1] |]; [| discriminate].
    now inversion Hrun.
Qed.

(** Selections 4, 7 and 0, each on a line of its own, at the menu of [main]'s
    account: two passes that go on, then the exit; and the same session with
    the final 0 cut off by the end of the input, which never ends. *)
Lemma loop_ends_at_zero_witness :
  (exists u' t',
     run 3 account0 (typed [4; 7; 0]%Z [] []) = Some (u', t') /\
     exists cs,
       Forall nonzero cs /\
       menu_session account0 (typed [4; 7; 0]%Z [] []) (cs ++ [0%Z]) u' t') /\
  run_loop 1 (-1) account0 (typed [7; 7; 7]%Z [] []) = None /\
  run 5 account0
    {| ints := [attempt_of (Number 0%Z false)]; decimals := []; lines := [];
       screen := [] |} = None.
Proof.
  destruct loop_ends_at_zero as (Hiff & _ & _ & Hgo & _ & Hcut & _).
  split; [| split].
  - destruct (run 3 account0 (typed [4; 7; 0]%Z [] [])) as [[u' t'] |] eqn:Hrun.
    + exists u', t'. split; [reflexivity |].
      apply (proj1 (Hiff account0 (typed [4; 7; 0]%Z [] []) u' t')).
      exists 3%nat. exact Hrun.
    + lazy in Hrun. discriminate Hrun.
  - assert (Hprev : (-1)%Z <> 0%Z) by discriminate.
    assert (Hc : 7%Z <> 0%Z) by discriminate.
    exact (proj1 (Hgo 0%nat (-1)%Z account0 (typed [7; 7; 7]%Z [] []) 7%Z
                    (emit [Str "Enter choice: "]
                       (emit (menu account0) (typed [7; 7]%Z [] [])))
                    Hprev eq_refl Hc)).
  - apply (Hcut 5%nat account0 _ 0%Z). reflexivity.
Defined.

(** ** Operations that change nothing *)

Lemma dispatch_report (choice : Z) (u : User) (t : Terminal) :
  choice = 4%Z \/ choice = 5%Z \/ choice = 6%Z ->
  dispatch choice u t = Some (u, emit (report choice (manager u)) t).
Proof. intros [-> | [-> | ->]]; reflexivity. Qed.

Lemma dispatch_invalid (choice : Z) (u : User) (t : Terminal) :
  (choice < 0 \/ 6 < choice)%Z ->
  dispatch choice u t = Some (u, emit invalid_option t).
Proof.
  intros Hout. destruct choice as [| p | p]; [lia | | reflexivity].
  do 3 (destruct p as [p | p |]; try reflexivity; try lia).
Qed.



(** ** What the ledger stores *)

(** A value returned by [getNumericInput] is one of the attempts, accepted by
    [good], and what is left of the attempts is what followed it. *)
Lemma getNumericInput_loop_inv {T : Type} (good : T -> bool) (prompt : string)
    (attempts rest : list (option T)) (out out' : list chunk) (value : T) :
  getNumericInput_loop good prompt attempts out = Some (value, rest, out') ->
  good value = true /\
  exists skipped, attempts = skipped ++ Some value :: rest.
Proof.
  revert out. induction attempts as [| a attempts IH]; intros out Hread.
  - discriminate.
  - cbn [getNumericInput_loop] in Hread. destruct a as [v |].
    + destruct (good v) eqn:Hgood.
      * inversion Hread; subst. split; [assumption |]. now exists [].
      * destruct (IH _ Hread) as (Hv & skipped & ->).
        split; [assumption |]. now exists (Some v :: skipped).
    + destruct (IH _ Hread) as (Hv & skipped & ->).
      split; [assumption |]. now exists (None :: skipped).
Qed.

(** [int_fits] is membership in the range of [int]. *)
Lemma int_fits_range (z : Z) :
  int_fits z = true <-> (INT_MIN <= z <= INT_MAX)%Z.
Proof.
  unfold int_fits. rewrite andb_true_iff, !Z.leb_le. tauto.
Qed.

Lemma getNumericInput_int_fits (prompt : string) (t t' : Terminal) (z : Z) :
  getNumericInput_int prompt t = Some (z, t') -> (INT_MIN <= z <= INT_MAX)%Z.
Proof.
  unfold getNumericInput_int. intros Hread.
  destruct (getNumericInput_loop _ _ _ _) as [[[v rest] out] |] eqn:Hloop;
    [| discriminate].
  inversion Hread; subst.
  apply int_fits_range. now apply (getNumericInput_loop_inv _ _ _ _ _ _ _ Hloop).
Qed.

(** *** A Hoare rule per primitive, for the invariant [nonneg_terminal] *)

Lemma keeps_ret {A : Type} (a : A) (post : A -> Prop) :
  post a -> keeps (ret a) post.
Proof. intros Ha t b t' Ht Hrun. inversion Hrun; subst. now split. Qed.

Lemma keeps_bind {A B : Type} (m : IO A) (k : A -> IO B)
    (mid : A -> Prop) (post : B -> Prop) :
  keeps m mid -> (forall a, mid a -> keeps (k a) post) -> keeps (bind m k) post.
Proof.
  intros Hm Hk t b t' Ht Hrun. unfold bind in Hrun.
  destruct (m t) as [[a t1] |] eqn:Hmt; [| discriminate].
  destruct (Hm t a t1 Ht Hmt) as [Hmid Ht1].
  exact (Hk a Hmid t1 b t' Ht1 Hrun).
Qed.

Lemma keeps_print (cs : list chunk) : keeps (print cs) (fun _ => True).
Proof. intros t [] t' Ht Hrun. inversion Hrun; subst. now split. Qed.

Lemma keeps_getStringInput (prompt : string) :
  keeps (getStringInput prompt) (fun _ => True).
Proof.
  intros t s t' Ht Hrun. unfold getStringInput in Hrun.
  destruct (lines t); inversion Hrun; subst; now split.
Qed.

Lemma keeps_getNumericInput_int (prompt : string) :
  keeps (getNumericInput_int prompt) (fun z => (0 <= z)%Z).
Proof.
  intros t z t' [Hints Hdecs] Hrun. unfold getNumericInput_int in Hrun.
  destruct (getNumericInput_loop _ _ _ _) as [[[v rest] out] |] eqn:Hloop;
    [| discriminate].
  inversion Hrun; subst.
  destruct (getNumericInput_loop_inv _ _ _ _ _ _ _ Hloop) as (_ & skipped & Heq).
  rewrite Heq in Hints. apply Forall_app in Hints as [_ Hints].
  inversion Hints; subst. split; [assumption | split; assumption].
Qed.

Lemma keeps_getNumericInput_double (prompt : string) :
  keeps (getNumericInput_double prompt) (fun q => 0 <= q).
Proof.
  intros t q t' [Hints Hdecs] Hrun. unfold getNumericInput_double in Hrun.
  destruct (getNumericInput_loop _ _ _ _) as [[[v rest] out] |] eqn:Hloop;
    [| discriminate].
  inversion Hrun; subst.
  destruct (getNumericInput_loop_inv _ _ _ _ _ _ _ Hloop) as (_ & skipped & Heq).
  rewrite Heq in Hdecs. apply Forall_app in Hdecs as [_ Hdecs].
  inversion Hdecs; subst. split; [assumption | split; assumption].
Qed.

Create HintDb keeps discriminated.
#[local] Hint Resolve keeps_print keeps_getStringInput
  keeps_getNumericInput_int keeps_getNumericInput_double : keeps.

(** One step through a [bind] whose first computation is a primitive. *)
Ltac keeps_step :=
  lazymatch goal with
  | |- keeps (bind _ _) _ =>
      eapply keeps_bind; [solve [eauto with keeps] | cbv beta; intros ? ?]
  | |- keeps (ret _) _ => apply keeps_ret
  | |- keeps (if ?c then _ else _) _ => destruct c
  end.

Lemma ledger_ok_addTransaction (t : Transaction) (fm : FinanceManager) :
  ledger_ok fm -> transaction_ok t -> ledger_ok (addTransaction t fm).
Proof.
  intros [Ht Hi] Hok. split; cbn; [| assumption].
  apply Forall_app. split; [assumption | now constructor].
Qed.

Lemma ledger_ok_addInvestment (i : Investment) (fm : FinanceManager) :
  ledger_ok fm -> investment_ok i -> ledger_ok (addInvestment i fm).
Proof.
  intros [Ht Hi] Hok. split; cbn; [assumption |].
  apply Forall_app. split; [assumption | now constructor].
Qed.

Lemma keeps_recordIncome (u : User) :
  account_ok u -> keeps (recordIncome u) account_ok.
Proof.
  intros Hu. unfold recordIncome. repeat keeps_step.
  apply ledger_ok_addTransaction; assumption.
Qed.

Lemma keeps_recordExpenditure (u : User) :
  account_ok u -> keeps (recordExpenditure u) account_ok.
Proof.
  intros Hu. unfold recordExpenditure. repeat keeps_step; [assumption |].
  apply ledger_ok_addTransaction; assumption.
Qed.

Lemma keeps_makeInvestment (u : User) :
  account_ok u -> keeps (makeInvestment u) account_ok.
Proof.
  intros Hu. unfold makeInvestment. repeat keeps_step; try assumption.
  - apply ledger_ok_addInvestment; [assumption | split; assumption].
  - apply ledger_ok_addInvestment; [assumption | split; assumption].
Qed.

Lemma keeps_dispatch (choice : Z) (u : User) :
  account_ok u -> keeps (dispatch choice u) account_ok.
Proof.
  intros Hu.
  assert (Hquiet : forall cs, keeps (bind (print cs) (fun _ => ret u)) account_ok).
  { intros cs. repeat keeps_step. assumption. }
  destruct choice as [| p | p]; cbn [dispatch]; [apply Hquiet | | apply Hquiet].
  do 3 (destruct p as [p | p |];
        auto using keeps_recordIncome, keeps_recordExpenditure,
                   keeps_makeInvestment).
Qed.

Lemma keeps_iteration (u : User) :
  account_ok u -> keeps (iteration u) (fun r => account_ok (snd r)).
Proof.
  intros Hu. unfold iteration. do 2 keeps_step.
  eapply keeps_bind; [apply keeps_dispatch; assumption |].
  cbv beta. intros u1 Hu1. keeps_step. exact Hu1.
Qed.

Lemma passes_keep (cs : list Z) (u u' : User) (t t' : Terminal) :
  passes u t cs u' t' ->
  account_ok u -> nonneg_terminal t -> account_ok u' /\ nonneg_terminal t'.
Proof.
  induction 1 as [| u u1 u2 t t1 t2 c cs Hpass _ IH]; intros Hu Ht.
  - now split.
  - destruct (keeps_iteration u Hu t (c, u1) t1 Ht Hpass) as [Hu1 Ht1].
    now apply IH.
Qed.

(** The prompts check no sign: an income of -5 typed at the menu of [main] is
    stored as it is, and a run of the program ends with a ledger that holds a
    transaction of negative amount. *)
Lemma negative_amount_stored :
  ~ (forall fuel t u' t',
       run fuel account0 t = Some (u', t') -> ledger_ok (manager u')).
Proof.
  intros Hclaim.
  destruct (run 2 account0 (typed [1; 0]%Z [-5] ["refund"%string]))
    as [[u' t'] |] eqn:Hrun.
  - pose proof (Hclaim _ _ _ _ Hrun) as [Hts _].
    lazy in Hrun. inversion Hrun; subst. cbn in Hts.
    inversion Hts as [| ? ? Hneg _]; subst.
    apply Hneg. reflexivity.
  - lazy in Hrun. discriminate Hrun.
Qed.

(** C7, amended.  When every number typed is non-negative, every Transaction
    stored has [amount >= 0] and every Investment stored has [principal >= 0]
    and [durationYears >= 0], after any sequence of passes through the menu
    and at the end of any run, from any account whose ledger satisfies this
    already, the empty ledger of [main] among them. *)
Theorem stored_records_nonnegative (u u' : User) (t t' : Terminal) :
  ledger_ok (manager u) ->
  nonneg_terminal t ->
  (forall cs, passes u t cs u' t' -> ledger_ok (manager u')) /\
  (forall fuel, run fuel u t = Some (u', t') -> ledger_ok (manager u')).
Proof.
  intros Hu Ht. split.
  - intros cs Hcs. now apply (passes_keep cs u u' t t' Hcs).
  - intros fuel Hrun.
    destruct (run_loop_sound fuel (-1) u u' t t') as (cs & _ & _ & Hcs);
      [discriminate | exact Hrun |].
    now apply (passes_keep _ u u' t t' Hcs).
Qed.

(** An income of 250 and an FD of 3000 over 2 years, then the exit. *)
Lemma stored_records_nonnegative_witness :
  ledger_ok (manager account0) /\
  nonneg_terminal (typed [1; 3; 2; 2; 0]%Z [250; 3000] ["Salary"%string]) /\
  exists u' t',
    run 3 account0 (typed [1; 3; 2; 2; 0]%Z [250; 3000] ["Salary"%string])
    = Some (u', t') /\
    transactions (manager u') = [Income 250 "Salary"] /\
    investments (manager u') = [FD 3000 2] /\
    ledger_ok (manager u').
Proof.
  assert (Hu : ledger_ok (manager account0)) by (split; constructor).
  assert (Ht : nonneg_terminal
                 (typed [1; 3; 2; 2; 0]%Z [250; 3000] ["Salary"%string])).
  { split; repeat constructor; discriminate. }
  split; [exact Hu |]. split; [exact Ht |].
  destruct (run 3 account0
              (typed [1; 3; 2; 2; 0]%Z [250; 3000] ["Salary"%string]))
    as [[u' t'] |] eqn:Hrun.
  - exists u', t'. split; [reflexivity |].
    pose proof (proj2 (stored_records_nonnegative account0 u' _ t' Hu Ht)
                  3%nat Hrun) as Hok.
    lazy in Hrun. inversion Hrun; subst.
    split; [reflexivity | split; [reflexivity | exact Hok]].
  - lazy in Hrun. discriminate Hrun.
Defined.

(** ** Maturity values *)

Lemma monthly_growth_value : monthly_growth == 1.008.
Proof. reflexivity. Qed.

Lemma wrap_int_fits (z : Z) :
  (INT_MIN <= z <= INT_MAX)%Z -> wrap_int z = z.
Proof.
  unfold INT_MIN, INT_MAX, wrap_int. intros Hz.
  rewrite Z.mod_small by lia. lia.
Qed.

(** The month count is exact as long as it fits an [int]. *)
Lemma int_mul_exact (a b : Z) :
  (INT_MIN <= a * b <= INT_MAX)%Z -> int_mul a b = (a * b)%Z.
Proof. apply wrap_int_fits. Qed.

(** Within the range of [int] the code computes the formula. *)
Lemma SIP_maturity_in_range (p : Q) (d : Z) (m : Q) :
  (INT_MIN <= 12 * d <= INT_MAX)%Z ->
  getMaturityAmount (SIP p d m) = SIP_maturity_formula p d m.
Proof.
  intros Hd. cbn [getMaturityAmount].
  unfold SIP_getMaturityAmount, SIP_maturity_formula, pow, SIP_ANNUAL_RATE.
  rewrite int_mul_exact by (rewrite Z.mul_comm; exact Hd).
  now rewrite (Z.mul_comm d 12).
Qed.

(** The pure annuity of the specification: no principal, one year, 1000 a
    month. *)
Lemma SIP_pure_annuity :
  getMaturityAmount (SIP 0 1 1000) == 1000 * ((1 + 0.008) ^ 12 - 1) / 0.008.
Proof. vm_compute. reflexivity. Qed.

(** With no principal and a contribution of 1 the maturity is the annuity
    factor, whatever the exponent the code arrives at. *)
Lemma SIP_unit_annuity (d : Z) :
  getMaturityAmount (SIP 0 d 1)
  == (monthly_growth ^ int_mul d 12 - 1) * 125.
Proof.
  cbn [getMaturityAmount]. unfold SIP_getMaturityAmount, pow.
  fold monthly_growth. generalize (monthly_growth ^ int_mul d 12). intros y.
  unfold SIP_ANNUAL_RATE. field.
Qed.

Lemma SIP_formula_unit_annuity (d : Z) :
  SIP_maturity_formula 0 d 1 == (monthly_growth ^ (12 * d) - 1) * 125.
Proof.
  unfold SIP_maturity_formula. cbv zeta.
  change (1 + 0.096 / 12) with monthly_growth.
  generalize (monthly_growth ^ (12 * d)). intros y. field.
Qed.

(** C3 at a duration whose month count leaves the range of [int]: a SIP of
    178956971 years has [12 * d = 2147483652], which [durationYears * 12]
    wraps to a negative exponent; with no principal and 1 a month the code
    returns a negative maturity (between -125 and 0) where the formula of the
    specification is positive. *)
Theorem SIP_month_count_overflow :
  int_fits 178956971 = true /\
  int_mul 178956971 12 = (-2147483644)%Z /\
  (12 * 178956971 = 2147483652)%Z /\
  -125 < getMaturityAmount (SIP 0 178956971 1) /\
  getMaturityAmount (SIP 0 178956971 1) < 0 /\
  0 < SIP_maturity_formula 0 178956971 1.
Proof.
  assert (Hmul : int_mul 178956971 12 = (- 2147483644)%Z)
    by (vm_compute; reflexivity).
  assert (Hgrow : 1 < monthly_growth) by reflexivity.
  assert (Hbig : 1 < monthly_growth ^ 2147483644)
    by (apply Qpower_1_lt; [exact Hgrow | reflexivity]).
  assert (Hbig' : 1 < monthly_growth ^ 2147483652)
    by (apply Qpower_1_lt; [exact Hgrow | reflexivity]).
  split; [reflexivity |]. split; [exact Hmul |].
  split; [vm_compute; reflexivity |].
  rewrite SIP_unit_annuity, SIP_formula_unit_annuity, Hmul.
  change (12 * 178956971)%Z with 2147483652%Z.
  change (-2147483644)%Z with (Z.opp 2147483644).
  rewrite (Qpower_opp monthly_growth 2147483644).
  revert Hbig Hbig'.
  generalize (monthly_growth ^ 2147483644), (monthly_growth ^ 2147483652).
  intros y z Hy Hz.
  assert (Hpos : 0 < / y) by (apply Qinv_lt_0_compat; lra).
  assert (Hinv : / y < 1).
  { apply Qlt_shift_inv_r; lra. }
  repeat split; lra.
Qed.

Lemma yearly_growth_value : yearly_growth == 1.071.
Proof. reflexivity. Qed.



(** * Further properties of the program *)

(** ** The retry loop of [getNumericInput] (main.cpp 191-207) *)

(** X1. [getNumericInput<int>] returns the first attempt after which the
    stream is good: a number that fits an [int] and is not the last thing in
    the input.  What is typed before it (words, numbers out of range) is passed
    over, each time leaving the prompt and the complaint on the screen; the
    prompt is written once more for the attempt accepted, and what is typed
    after it stays for the next prompt. *)
Theorem getNumericInput_int_first_valid (prompt : string) (t : Terminal)
    (skipped : list (keyed Z)) (rest : list (option Z)) (z : Z) :
  ints t = map attempt_of skipped ++ attempt_of (Number z true) :: rest ->
  Forall (fun k => refused int_fits (attempt_of k)) skipped ->
  (INT_MIN <= z <= INT_MAX)%Z ->
  getNumericInput_int prompt t
  = Some (z, {| ints := rest; decimals := decimals t; lines := lines t;
                screen := screen t ++ retries prompt (length skipped)
                                   ++ [Str prompt] |}).
Proof.
  intros Hints Hskipped Hz. unfold getNumericInput_int. rewrite Hints.
  cbn [attempt_of].
  rewrite (getNumericInput_loop_skips int_fits prompt (map attempt_of skipped)
             rest (screen t) z).
  - now rewrite length_map.
  - apply Forall_map. exact Hskipped.
  - apply int_fits_range. exact Hz.
Qed.

(** A word, then a number too large for an [int], then 3, then 0. *)
Lemma getNumericInput_int_first_valid_witness :
  getNumericInput_int "Enter choice: "
    {| ints := map attempt_of [Word; Number 4294967296%Z true]
               ++ attempt_of (Number 3%Z true) :: [Some 0%Z];
       decimals := []; lines := []; screen := [] |}
  = Some (3%Z, {| ints := [Some 0%Z]; decimals := []; lines := [];
                  screen := [] ++ retries "Enter choice: " 2
                               ++ [Str "Enter choice: "] |}).
Proof.
  apply (getNumericInput_int_first_valid "Enter choice: "
           {| ints := map attempt_of [Word; Number 4294967296%Z true]
                      ++ attempt_of (Number 3%Z true) :: [Some 0%Z];
              decimals := []; lines := []; screen := [] |}
           [Word; Number 4294967296%Z true] [Some 0%Z] 3%Z).
  - reflexivity.
  - repeat constructor.
  - split; discriminate.
Defined.

(** X2. A numeric prompt never gives up.  [getNumericInput] fails to return
    exactly when the stream is good after none of the attempts still to come:
    each is a word, a number out of the range of the type, or a number cut off
    by the end of the input; in particular a number typed as the very last
    thing of the input, with no line end after it, is refused and the call
    then never returns.  What [getNumericInput<int>] returns is an [int] that
    was typed, the attempts before it were refused, and the decimals and
    lines to come are untouched. *)
Theorem getNumericInput_returns_iff_valid_attempt (prompt : string)
    (t : Terminal) :
  (getNumericInput_int prompt t = None <->
   Forall (refused int_fits) (ints t)) /\
  (getNumericInput_double prompt t = None <->
   Forall (fun a => a = None) (decimals t)) /\
  (forall z,
     ints t = [attempt_of (Number z false)] ->
     getNumericInput_int prompt t = None) /\
  (forall q,
     decimals t = [attempt_of (Number q false)] ->
     getNumericInput_double prompt t = None) /\
  (forall z t',
     getNumericInput_int prompt t = Some (z, t') ->
     (INT_MIN <= z <= INT_MAX)%Z /\
     exists skipped,
       ints t = skipped ++ Some z :: ints t' /\
       Forall (refused int_fits) skipped /\
       decimals t' = decimals t /\ lines t' = lines t).
Proof.
  assert (Hint : getNumericInput_int prompt t = None <->
                 Forall (refused int_fits) (ints t)).
  { unfold getNumericInput_int.
    rewrite <- (getNumericInput_loop_none int_fits prompt (ints t) (screen t)).
    destruct (getNumericInput_loop _ _ _ _) as [[[v rest] out] |];
      split; intros H; first [discriminate H | reflexivity]. }
  assert (Hdbl : getNumericInput_double prompt t = None <->
                 Forall (fun a => a = None) (decimals t)).
  { unfold getNumericInput_double.
    assert (Hsame : Forall (fun a : option Q => a = None) (decimals t) <->
                    Forall (refused (fun _ : Q => true)) (decimals t)).
    { split; intros H; (eapply Forall_impl; [| exact H]); intros [q |]; cbn;
        intros H'; try discriminate H'; auto. }
    rewrite Hsame.
    rewrite <- (getNumericInput_loop_none (fun _ => true) prompt (decimals t)
                  (screen t)).
    destruct (getNumericInput_loop _ _ _ _) as [[[v rest] out] |];
      split; intros H; first [discriminate H | reflexivity]. }
  split; [exact Hint |]. split; [exact Hdbl |]. split; [| split].
  - intros z Hints. apply Hint. rewrite Hints. repeat constructor.
  - intros q Hdecs. apply Hdbl. rewrite Hdecs. repeat constructor.
  - intros z t' Hread. split; [exact (getNumericInput_int_fits _ _ _ _ Hread) |].
    unfold getNumericInput_int in Hread.
    destruct (getNumericInput_loop _ _ _ _) as [[[v rest] out] |] eqn:Hloop;
      [| discriminate].
    inversion Hread; subst. cbn [ints decimals lines].
    destruct (getNumericInput_loop_first _ _ _ _ _ _ _ Hloop)
      as (skipped & Heq & Hsk & _ & _).
    exists skipped. repeat split; assumption.
Qed.

(** A 0 that ends the input is never returned; after a word, a 7 on a line of
    its own is. *)
Lemma getNumericInput_returns_iff_valid_attempt_witness :
  getNumericInput_int "Enter choice: "
    {| ints := [attempt_of (Number 0%Z false)]; decimals := []; lines := [];
       screen := [] |} = None /\
  exists t' skipped,
    getNumericInput_int "Enter choice: "
      {| ints := [attempt_of Word; attempt_of (Number 7%Z true)];
         decimals := []; lines := []; screen := [] |} = Some (7%Z, t') /\
    [attempt_of Word; attempt_of (Number 7%Z true)]
    = skipped ++ Some 7%Z :: ints t' /\
    Forall (refused int_fits) skipped.
Proof.
  split.
  - apply (proj1 (proj2 (proj2 (getNumericInput_returns_iff_valid_attempt
                                  "Enter choice: " _))) 0%Z).
    reflexivity.
  - destruct (getNumericInput_int "Enter choice: "
                {| ints := [attempt_of Word; attempt_of (Number 7%Z true)];
                   decimals := []; lines := []; screen := [] |})
      as [[z t'] |] eqn:Hread; [| discriminate Hread].
    assert (Hz : z = 7%Z) by (now inversion Hread). subst z.
    destruct (proj2 (proj2 (proj2 (proj2
                (getNumericInput_returns_iff_valid_attempt "Enter choice: "
                   {| ints := [attempt_of Word; attempt_of (Number 7%Z true)];
                      decimals := []; lines := []; screen := [] |}))))
                7%Z t' Hread) as (_ & skipped & Heq & Hsk & _).
    exists t', skipped. split; [reflexivity |]. split; assumption.
Defined.

(** ** What a pass does to the account (main.cpp 235-244, 250-307) *)

(** The account after a pass is the account before it, or that account with
    the one record the selection stands for. *)
Lemma iteration_inv (u u' : User) (t t' : Terminal) (c : Z) :
  iteration u t = Some ((c, u'), t') ->
  u' = u \/
  (c = 1%Z /\
   exists a desc,
     u' = {| manager := addTransaction (Income a desc) (manager u);
             balance := balance u + a |}) \/
  (c = 2%Z /\
   exists a desc,
     ~ balance u - a < MINIMUM_BALANCE /\
     u' = {| manager := addTransaction (Expenditure a desc) (manager u);
             balance := balance u - a |}) \/
  (c = 3%Z /\
   exists inv,
     ~ balance u - getPrincipal inv < MINIMUM_BALANCE /\
     u' = {| manager := addInvestment inv (manager u);
             balance := balance u - getPrincipal inv |}).
Proof.
  rewrite iteration_eq.
  destruct (getNumericInput_int _ _) as [[choice t0] |]; [| discriminate].
  destruct (dispatch choice u t0) as [[u1 t1] |] eqn:Hd; [| discriminate].
  intros H. inversion H; subst. clear H.
  assert (Hquiet : forall cs,
             bind (print cs) (fun _ => ret u) t0 = Some (u', t') -> u' = u).
  { intros cs H. now inversion H. }
  destruct c as [| p | p]; cbn [dispatch] in Hd;
    [left; eapply Hquiet; eassumption | | left; eapply Hquiet; eassumption].
  do 3 (try (destruct p as [p | p |];
             try (left; eapply Hquiet; eassumption))).
  - destruct (makeInvestment_inv _ _ _ _ Hd)
      as [-> | (a & d & Hok & [(m & ->) | ->])]; [now left | |].
    + right; right; right. split; [reflexivity |]. now exists (SIP a d m).
    + right; right; right. split; [reflexivity |]. now exists (FD a d).
  - destruct (recordExpenditure_inv _ _ _ _ Hd) as [-> | (a & desc & Hok & ->)];
      [now left |].
    right; right; left. split; [reflexivity |]. now exists a, desc.
  - destruct (recordIncome_inv _ _ _ _ Hd) as (a & desc & ->).
    right; left. split; [reflexivity |]. now exists a, desc.
Qed.

(** X4. The ledger is append-only.  Over any sequence of passes the
    transactions and the investments held before are still there, in place,
    followed by what was added, and no more records were added than passes
    were made.  One pass adds at most one record: a transaction and no
    investment on selections 1 and 2, an investment and no transaction on
    selection 3, nothing on any other selection. *)
Theorem ledger_append_only :
  (forall u t cs u' t',
     passes u t cs u' t' ->
     exists ts invs,
       transactions (manager u') = transactions (manager u) ++ ts /\
       investments (manager u') = investments (manager u) ++ invs /\
       (length ts + length invs <= length cs)%nat) /\
  (forall u t c u' t',
     iteration u t = Some ((c, u'), t') ->
     (c <> 1%Z -> c <> 2%Z ->
      transactions (manager u') = transactions (manager u)) /\
     (c <> 3%Z -> investments (manager u') = investments (manager u)) /\
     (c <> 1%Z -> c <> 2%Z -> c <> 3%Z -> u' = u)).
Proof.
  split.
  - induction 1 as [| u u1 u2 t t1 t2 c cs Hpass _ IH].
    + exists [], []. rewrite !app_nil_r. repeat split. cbn. lia.
    + destruct IH as (ts & invs & Hts & Hinvs & Hlen).
      rewrite Hts, Hinvs. cbn [length].
      destruct (iteration_inv u u1 t t1 c Hpass)
        as [-> | [(_ & a & desc & ->) | [(_ & a & desc & _ & ->)
                                         | (_ & inv & _ & ->)]]];
        cbn [manager addTransaction addInvestment transactions investments].
      * exists ts, invs. repeat split. lia.
      * exists (Income a desc :: ts), invs. rewrite <- app_assoc.
        repeat split. cbn [length]. lia.
      * exists (Expenditure a desc :: ts), invs. rewrite <- app_assoc.
        repeat split. cbn [length]. lia.
      * exists ts, (inv :: invs). rewrite <- app_assoc.
        repeat split. cbn [length]. lia.
  - intros u t c u' t' Hpass.
    destruct (iteration_inv u u' t t' c Hpass)
      as [-> | [(-> & a & desc & ->) | [(-> & a & desc & _ & ->)
                                        | (-> & inv & _ & ->)]]];
      repeat split; intros; try reflexivity; congruence.
Qed.

Lemma ledger_append_only_witness :
  exists u' t' ts invs,
    run 4 (User_new 5000)
      (typed [1; 2; 3; 2; 5; 0]%Z [250; 3000; 1000]
         ["Salary"%string; "Rent"%string])
    = Some (u', t') /\
    transactions (manager u') = [] ++ ts /\
    investments (manager u') = [] ++ invs /\
    (length ts + length invs <= 4)%nat.
Proof.
  destruct (run 4 (User_new 5000)
              (typed [1; 2; 3; 2; 5; 0]%Z [250; 3000; 1000]
                 ["Salary"%string; "Rent"%string]))
    as [[u' t'] |] eqn:Hrun.
  - destruct (run_loop_sound 4 (-1) (User_new 5000) u'
                (typed [1; 2; 3; 2; 5; 0]%Z [250; 3000; 1000]
                   ["Salary"%string; "Rent"%string]) t')
      as (cs & Hlen & _ & Hcs); [discriminate | exact Hrun |].
    destruct (proj1 ledger_append_only _ _ _ _ _ Hcs)
      as (ts & invs & Hts & Hinvs & Hcount).
    exists u', t', ts, invs. split; [reflexivity |].
    split; [exact Hts |]. split; [exact Hinvs |].
    rewrite length_app in Hcount. cbn [length] in Hcount. lia.
  - lazy in Hrun. discriminate Hrun.
Defined.

(** X12. Every pass through the menu uses up at least one integer typed, the
    selection: the passes made and the integer attempts left never exceed the
    integer attempts there were, so a session makes at most as many passes as
    integers are typed. *)
Theorem passes_bounded_by_integers_typed (u u' : User) (t t' : Terminal)
    (cs : list Z) :
  passes u t cs u' t' ->
  (length cs + length (ints t') <= length (ints t))%nat.
Proof.
  induction 1 as [| u u1 u2 t t1 t2 c cs Hpass _ IH]; cbn [length]; [lia |].
  apply iteration_consumes in Hpass. lia.
Qed.

Lemma passes_bounded_by_integers_typed_witness :
  passes account0 (typed [4]%Z [] []) [4%Z] account0
    (emit (report 4 (manager account0))
       (emit [Str "Enter choice: "] (emit (menu account0) (typed [] [] [])))) /\
  (1 + 0 <= 1)%nat.
Proof.
  assert (H : passes account0 (typed [4]%Z [] []) [4%Z] account0
                (emit (report 4 (manager account0))
                   (emit [Str "Enter choice: "]
                      (emit (menu account0) (typed [] [] []))))).
  { econstructor; [reflexivity | constructor]. }
  split; [exact H |].
  exact (passes_bounded_by_integers_typed _ _ _ _ _ H).
Defined.

(** ** The floor of the balance over a session *)

Lemma preserves_ret {A : Type} (Inv : Terminal -> Prop) (a : A)
    (post : A -> Prop) :
  post a -> preserves Inv (ret a) post.
Proof. intros Ha t b t' Ht Hrun. inversion Hrun; subst. now split. Qed.

Lemma preserves_bind {A B : Type} (Inv : Terminal -> Prop) (m : IO A)
    (k : A -> IO B) (mid : A -> Prop) (post : B -> Prop) :
  preserves Inv m mid ->
  (forall a, mid a -> preserves Inv (k a) post) ->
  preserves Inv (bind m k) post.
Proof.
  intros Hm Hk t b t' Ht Hrun. unfold bind in Hrun.
  destruct (m t) as [[a t1] |] eqn:Hmt; [| discriminate].
  destruct (Hm t a t1 Ht Hmt) as [Hmid Ht1].
  exact (Hk a Hmid t1 b t' Ht1 Hrun).
Qed.

Lemma decimals_print (cs : list chunk) :
  preserves nonneg_decimals (print cs) (fun _ => True).
Proof. intros t [] t' Ht Hrun. inversion Hrun; subst. now split. Qed.

Lemma decimals_getStringInput (prompt : string) :
  preserves nonneg_decimals (getStringInput prompt) (fun _ => True).
Proof.
  intros t s t' Ht Hrun. unfold getStringInput in Hrun.
  destruct (lines t); inversion Hrun; subst; now split.
Qed.

Lemma decimals_getNumericInput_int (prompt : string) :
  preserves nonneg_decimals (getNumericInput_int prompt) (fun _ => True).
Proof.
  intros t z t' Ht Hrun. unfold getNumericInput_int in Hrun.
  destruct (getNumericInput_loop _ _ _ _) as [[[v rest] out] |];
    [| discriminate].
  inversion Hrun; subst. now split.
Qed.

Lemma decimals_getNumericInput_double (prompt : string) :
  preserves nonneg_decimals (getNumericInput_double prompt) (fun q => 0 <= q).
Proof.
  intros t q t' Ht Hrun. unfold getNumericInput_double in Hrun.
  destruct (getNumericInput_loop _ _ _ _) as [[[v rest] out] |] eqn:Hloop;
    [| discriminate].
  inversion Hrun; subst.
  destruct (getNumericInput_loop_inv _ _ _ _ _ _ _ Hloop) as (_ & skipped & Heq).
  unfold nonneg_decimals in *. rewrite Heq in Ht.
  apply Forall_app in Ht as [_ Ht]. inversion Ht; subst. now split.
Qed.

Create HintDb decimals discriminated.
#[local] Hint Resolve decimals_print decimals_getStringInput
  decimals_getNumericInput_int decimals_getNumericInput_double : decimals.

Ltac decimals_step :=
  lazymatch goal with
  | |- preserves _ (bind _ _) _ =>
      eapply preserves_bind; [solve [eauto with decimals] | cbv beta; intros ? ?]
  | |- preserves _ (ret _) _ => apply preserves_ret
  | |- preserves _ (if ?c then _ else _) _ => destruct c
  end.

Lemma floor_recordIncome (u : User) :
  above_floor u -> preserves nonneg_decimals (recordIncome u) above_floor.
Proof.
  unfold above_floor. intros Hu. unfold recordIncome. repeat decimals_step.
  cbn [balance]. lra.
Qed.

Lemma floor_recordExpenditure (u : User) :
  above_floor u -> preserves nonneg_decimals (recordExpenditure u) above_floor.
Proof.
  unfold above_floor. intros Hu. unfold recordExpenditure.
  repeat decimals_step; [assumption |]. cbn [balance]. assumption.
Qed.

Lemma floor_makeInvestment (u : User) :
  above_floor u -> preserves nonneg_decimals (makeInvestment u) above_floor.
Proof.
  unfold above_floor. intros Hu. unfold makeInvestment.
  repeat decimals_step; try assumption.
Qed.

Lemma floor_dispatch (choice : Z) (u : User) :
  above_floor u -> preserves nonneg_decimals (dispatch choice u) above_floor.
Proof.
  intros Hu.
  assert (Hquiet : forall cs,
             preserves nonneg_decimals (bind (print cs) (fun _ => ret u))
               above_floor).
  { intros cs. repeat decimals_step. assumption. }
  destruct choice as [| p | p]; cbn [dispatch]; [apply Hquiet | | apply Hquiet].
  do 3 (destruct p as [p | p |];
        auto using floor_recordIncome, floor_recordExpenditure,
                   floor_makeInvestment).
Qed.

Lemma floor_iteration (u : User) :
  above_floor u ->
  preserves nonneg_decimals (iteration u) (fun r => above_floor (snd r)).
Proof.
  intros Hu. unfold iteration. do 2 decimals_step.
  eapply preserves_bind; [apply floor_dispatch; assumption |].
  cbv beta. intros u1 Hu1. decimals_step. exact Hu1.
Qed.

(** X5. The floor holds over a whole session in which no negative decimal is
    typed: from an account at or above [MINIMUM_BALANCE], the balance is at or
    above it after every pass through the menu and at the end of the run,
    whatever is selected and however often an operation is refused.  The run
    of [main] starts at 5000, above the floor. *)
Theorem balance_stays_above_floor (u u' : User) (t t' : Terminal) :
  MINIMUM_BALANCE <= balance u ->
  nonneg_decimals t ->
  (forall cs, passes u t cs u' t' -> MINIMUM_BALANCE <= balance u') /\
  (forall fuel, run fuel u t = Some (u', t') -> MINIMUM_BALANCE <= balance u').
Proof.
  intros Hu Ht.
  assert (Hpasses : forall cs v v' s s',
             passes v s cs v' s' -> above_floor v -> nonneg_decimals s ->
             above_floor v').
  { induction 1 as [| v v1 v2 s s1 s2 c cs Hpass _ IH]; intros Hv Hs.
    - assumption.
    - destruct (floor_iteration v Hv s (c, v1) s1 Hs Hpass) as [Hv1 Hs1].
      now apply IH. }
  split.
  - intros cs Hcs. exact (Hpasses cs u u' t t' Hcs Hu Ht).
  - intros fuel Hrun.
    destruct (run_loop_sound fuel (-1) u u' t t') as (cs & _ & _ & Hcs);
      [discriminate | exact Hrun |].
    exact (Hpasses _ u u' t t' Hcs Hu Ht).
Qed.

(** From 5000: 3000 spent, then 1500 refused, then an invalid selection. *)
Lemma balance_stays_above_floor_witness :
  MINIMUM_BALANCE <= balance account0 /\
  nonneg_decimals (typed [2; 2; -1; 0]%Z [3000; 1500] ["Rent"%string]) /\
  exists u' t',
    run 4 account0 (typed [2; 2; -1; 0]%Z [3000; 1500] ["Rent"%string])
    = Some (u', t') /\
    balance u' == 2000 /\
    MINIMUM_BALANCE <= balance u'.
Proof.
  assert (Hu : MINIMUM_BALANCE <= balance account0) by discriminate.
  assert (Ht : nonneg_decimals
                 (typed [2; 2; -1; 0]%Z [3000; 1500] ["Rent"%string])).
  { repeat constructor; discriminate. }
  split; [exact Hu |]. split; [exact Ht |].
  destruct (run 4 account0
              (typed [2; 2; -1; 0]%Z [3000; 1500] ["Rent"%string]))
    as [[u' t'] |] eqn:Hrun.
  - exists u', t'. split; [reflexivity |].
    pose proof (proj2 (balance_stays_above_floor account0 u' _ t' Hu Ht)
                  4%nat Hrun) as Hfloor.
    split; [| exact Hfloor].
    lazy in Hrun. inversion Hrun; subst. reflexivity.
  - lazy in Hrun. discriminate Hrun.
Defined.

(** ** The three reports (main.cpp 140-170) *)

Lemma numbers_shown_app (xs ys : list chunk) :
  numbers_shown (xs ++ ys) = numbers_shown xs ++ numbers_shown ys.
Proof.
  induction xs as [| [s | x | n |] xs IH]; cbn; [reflexivity | | | |];
    now rewrite IH.
Qed.

Lemma integers_shown_app (xs ys : list chunk) :
  integers_shown (xs ++ ys) = integers_shown xs ++ integers_shown ys.
Proof.
  induction xs as [| [s | x | n |] xs IH]; cbn; [reflexivity | | | |];
    now rewrite IH.
Qed.

Lemma lines_shown_app (xs ys : list chunk) :
  lines_shown (xs ++ ys) = (lines_shown xs + lines_shown ys)%nat.
Proof.
  induction xs as [| [s | x | n |] xs IH]; cbn; [reflexivity | | | |];
    now rewrite IH.
Qed.

Lemma projections_from_shown (i : nat) (invs : list Investment) :
  integers_shown (projections_from i invs)
  = map Z.of_nat (seq (S i) (length invs)) /\
  numbers_shown (projections_from i invs) = map getMaturityAmount invs /\
  lines_shown (projections_from i invs) = (2 * length invs)%nat.
Proof.
  revert i. induction invs as [| inv invs IH]; intros i.
  - repeat split.
  - destruct (IH (S i)) as (Hi & Hn & Hl).
    cbn [projections_from length seq map].
    rewrite integers_shown_app, numbers_shown_app, lines_shown_app, Hi, Hn, Hl.
    cbn. repeat split.
    + f_equal. lia.
    + f_equal. lia.
Qed.

(** X6. The projections report numbers the investments 1, 2, ..., n in
    insertion order and shows for each the maturity [getMaturityAmount]
    computes for it, two lines an investment after the two of the heading;
    with no investment it is the heading alone. *)
Theorem projections_report (fm : FinanceManager) :
  integers_shown (displayInvestmentProjections fm)
  = map Z.of_nat (seq 1 (length (investments fm))) /\
  numbers_shown (displayInvestmentProjections fm)
  = map getMaturityAmount (investments fm) /\
  lines_shown (displayInvestmentProjections fm)
  = (2 + 2 * length (investments fm))%nat /\
  (investments fm = [] ->
   displayInvestmentProjections fm
   = [Endl; Str "--- Investment Maturity Projections ---"; Endl]).
Proof.
  unfold displayInvestmentProjections.
  destruct (projections_from_shown 0 (investments fm)) as (Hi & Hn & Hl).
  rewrite integers_shown_app, numbers_shown_app, lines_shown_app, Hi, Hn, Hl.
  repeat split. intros ->. reflexivity.
Qed.

Lemma projections_report_witness :
  displayInvestmentProjections FinanceManager_new
  = [Endl; Str "--- Investment Maturity Projections ---"; Endl].
Proof.
  apply (proj2 (proj2 (proj2 (projections_report FinanceManager_new)))).
  reflexivity.
Defined.

Lemma history_rows_shown (ts : list Transaction) :
  numbers_shown (flat_map Transaction_display ts) = map getAmount ts /\
  lines_shown (flat_map Transaction_display ts) = length ts.
Proof.
  induction ts as [| t ts [IHn IHl]]; [split; reflexivity |].
  cbn. rewrite IHn, IHl. split; reflexivity.
Qed.

Lemma portfolio_rows_shown (invs : list Investment) :
  numbers_shown (flat_map Investment_display invs)
  = flat_map portfolio_numbers invs /\
  integers_shown (flat_map Investment_display invs)
  = map getDurationYears invs /\
  lines_shown (flat_map Investment_display invs) = length invs.
Proof.
  induction invs as [| i invs (IHn & IHi & IHl)]; [repeat split |].
  cbn [flat_map]. rewrite numbers_shown_app, integers_shown_app, lines_shown_app.
  rewrite IHn, IHi, IHl. destruct i; repeat split.
Qed.


(** ** More on the maturity values (main.cpp 88-93, 110-112) *)

Lemma wrap_int_range (z : Z) : (INT_MIN <= wrap_int z <= INT_MAX)%Z.
Proof.
  unfold wrap_int, INT_MIN, INT_MAX.
  pose proof (Z.mod_pos_bound (z + 2 ^ 31) (2 ^ 32) ltac:(lia)). lia.
Qed.

(** X8. The [int] product [durationYears * 12] of [SIP::getMaturityAmount]
    is the mathematical [12 * d] for the durations from -178956970 to
    178956970 years and for no other: outside them the product has left the
    range of [int] and the exponent handed to [pow] is another number, itself
    an [int]. *)
Theorem SIP_month_count_exact_iff (d : Z) :
  (int_mul d 12 = (12 * d)%Z <-> (-178956970 <= d <= 178956970)%Z) /\
  (INT_MIN <= int_mul d 12 <= INT_MAX)%Z.
Proof.
  split; [split |].
  - intros Heq. pose proof (wrap_int_range (d * 12)) as Hr.
    unfold int_mul in Heq. rewrite Heq in Hr. unfold INT_MIN, INT_MAX in Hr.
    lia.
  - intros Hd. rewrite int_mul_exact; [lia |]. unfold INT_MIN, INT_MAX. lia.
  - apply wrap_int_range.
Qed.

(** X10. With a duration of 0 years both kinds of investment mature to the
    principal, whatever the principal and the monthly contribution:
    [pow(x, 0)] is 1, the growth term is the principal and the contribution
    term is [m * 0]. *)
Theorem zero_duration_matures_to_principal (p m : Q) :
  getMaturityAmount (SIP p 0 m) == p /\
  getMaturityAmount (FD p 0) == p.
Proof.
  split; cbn [getMaturityAmount].
  - unfold SIP_getMaturityAmount, pow.
    change (int_mul 0 12) with 0%Z.
    change ((1 + SIP_ANNUAL_RATE / 12) ^ 0) with 1.
    unfold SIP_ANNUAL_RATE. field.
  - unfold FD_getMaturityAmount, pow.
    change ((1 + FD_ANNUAL_RATE) ^ 0) with 1. ring.
Qed.

(** ** What a session leaves on the screen *)

Lemma writes_on_ret {A : Type} (a : A) : writes_on (ret a).
Proof. intros t b t' H. inversion H; subst. exists []. now rewrite app_nil_r. Qed.

Lemma writes_on_bind {A B : Type} (m : IO A) (k : A -> IO B) :
  writes_on m -> (forall a, writes_on (k a)) -> writes_on (bind m k).
Proof.
  intros Hm Hk t b t' Hrun. unfold bind in Hrun.
  destruct (m t) as [[a t1] |] eqn:Hmt; [| discriminate].
  destruct (Hm t a t1 Hmt) as (out1 & H1).
  destruct (Hk a t1 b t' Hrun) as (out2 & H2).
  exists (out1 ++ out2). now rewrite H2, H1, app_assoc.
Qed.

Lemma writes_on_print (cs : list chunk) : writes_on (print cs).
Proof. intros t [] t' H. inversion H; subst. now exists cs. Qed.

Lemma writes_on_getStringInput (prompt : string) :
  writes_on (getStringInput prompt).
Proof.
  intros t s t' H. unfold getStringInput in H.
  destruct (lines t); inversion H; subst; now exists [Str prompt].
Qed.

Lemma writes_on_getNumericInput_int (prompt : string) :
  writes_on (getNumericInput_int prompt).
Proof.
  intros t z t' H. unfold getNumericInput_int in H.
  destruct (getNumericInput_loop _ _ _ _) as [[[v rest] out] |] eqn:Hloop;
    [| discriminate].
  inversion H; subst.
  destruct (getNumericInput_loop_first _ _ _ _ _ _ _ Hloop)
    as (skipped & _ & _ & _ & ->).
  eexists. reflexivity.
Qed.

Lemma writes_on_getNumericInput_double (prompt : string) :
  writes_on (getNumericInput_double prompt).
Proof.
  intros t z t' H. unfold getNumericInput_double in H.
  destruct (getNumericInput_loop _ _ _ _) as [[[v rest] out] |] eqn:Hloop;
    [| discriminate].
  inversion H; subst.
  destruct (getNumericInput_loop_first _ _ _ _ _ _ _ Hloop)
    as (skipped & _ & _ & _ & ->).
  eexists. reflexivity.
Qed.

Create HintDb screen discriminated.
#[local] Hint Resolve writes_on_ret writes_on_print writes_on_getStringInput
  writes_on_getNumericInput_int writes_on_getNumericInput_double : screen.

Ltac screen_step :=
  lazymatch goal with
  | |- writes_on (bind _ _) =>
      apply writes_on_bind; [solve [eauto with screen] | cbv beta; intros ?]
  | |- writes_on (ret _) => apply writes_on_ret
  | |- writes_on (if ?c then _ else _) => destruct c
  end.

Lemma writes_on_dispatch (choice : Z) (u : User) : writes_on (dispatch choice u).
Proof.
  assert (Hquiet : forall cs, writes_on (bind (print cs) (fun _ => ret u))).
  { intros cs. repeat screen_step. }
  assert (H1 : writes_on (recordIncome u))
    by (unfold recordIncome; repeat screen_step).
  assert (H2 : writes_on (recordExpenditure u))
    by (unfold recordExpenditure; repeat screen_step).
  assert (H3 : writes_on (makeInvestment u))
    by (unfold makeInvestment; repeat screen_step).
  destruct choice as [| p | p]; cbn [dispatch]; [apply Hquiet | | apply Hquiet].
  do 3 (destruct p as [p | p |]; auto).
Qed.

Lemma writes_on_iteration (u : User) : writes_on (iteration u).
Proof.
  unfold iteration. do 2 screen_step.
  apply writes_on_bind; [apply writes_on_dispatch |].
  intros v. screen_step.
Qed.

Lemma passes_write_on (u u' : User) (t t' : Terminal) (cs : list Z) :
  passes u t cs u' t' -> exists out, screen t' = screen t ++ out.
Proof.
  induction 1 as [| u u1 u2 t t1 t2 c cs Hpass _ (out2 & IH)].
  - exists []. now rewrite app_nil_r.
  - destruct (writes_on_iteration u t (c, u1) t1 Hpass) as (out1 & H1).
    exists (out1 ++ out2). now rewrite IH, H1, app_assoc.
Qed.

(** The last of the passes, taken apart. *)
Lemma passes_last (u u' : User) (t t' : Terminal) (cs : list Z) (c : Z) :
  passes u t (cs ++ [c]) u' t' ->
  exists u1 t1, passes u t cs u1 t1 /\ iteration u1 t1 = Some ((c, u'), t').
Proof.
  revert u t. induction cs as [| c0 cs IH]; intros u t Hcs.
  - cbn in Hcs. inversion Hcs as [| ? ? ? ? ? ? ? ? Hpass Hrest]; subst.
    inversion Hrest; subst. exists u, t. split; [constructor | exact Hpass].
  - cbn in Hcs. inversion Hcs as [| ? ? ? ? ? ? ? ? Hpass Hrest]; subst.
    destruct (IH _ _ Hrest) as (v & s & Hfront & Hlast).
    exists v, s. split; [econstructor; eassumption | exact Hlast].
Qed.

Lemma iteration_exit (u u' : User) (t t' : Terminal) :
  iteration u t = Some ((0%Z, u'), t') -> u' = u /\ reports goodbye t'.
Proof.
  rewrite iteration_eq.
  destruct (getNumericInput_int _ _) as [[choice t0] |]; [| discriminate].
  destruct (dispatch choice u t0) as [[u1 t1] |] eqn:Hd; [| discriminate].
  intros H. inversion H; subst. cbn in Hd. inversion Hd; subst.
  split; [reflexivity | apply reports_emit].
Qed.

(** X13. The program only ever adds to the screen, and a session that ends
    has said goodbye: whatever [run] returns has the farewell as the last
    thing written, and the account it returns is the one the exit selection
    found; what [main] leaves on the screen is what was there, the welcome,
    and then the session ending in the farewell. *)
Theorem session_screen :
  (forall u t cs u' t',
     passes u t cs u' t' -> exists out, screen t' = screen t ++ out) /\
  (forall fuel u t u' t',
     run fuel u t = Some (u', t') ->
     reports goodbye t' /\
     exists cs t1, passes u t cs u' t1 /\ Forall nonzero cs) /\
  (forall fuel t code t',
     main fuel t = Some (code, t') ->
     exists session, screen t' = screen t ++ welcome ++ session ++ goodbye).
Proof.
  assert (Hrun : forall fuel u t u' t',
             run fuel u t = Some (u', t') ->
             exists cs t1 out,
               passes u t cs u' t1 /\ Forall nonzero cs /\
               screen t' = screen t ++ out ++ goodbye).
  { intros fuel u t u' t' H.
    destruct (run_loop_sound fuel (-1) u u' t t') as (cs & _ & Hnz & Hcs);
      [discriminate | exact H |].
    destruct (passes_last _ _ _ _ _ _ Hcs) as (u1 & t1 & Hfront & Hlast).
    destruct (iteration_exit _ _ _ _ Hlast) as [Heq _]. subst u'.
    destruct (passes_write_on _ _ _ _ _ Hfront) as (out1 & H1).
    rewrite iteration_eq in Hlast.
    destruct (getNumericInput_int _ _) as [[choice t0] |] eqn:Hc;
      [| discriminate].
    destruct (writes_on_getNumericInput_int _ _ _ _ Hc) as (out2 & H2).
    destruct (dispatch choice u1 t0) as [[u2 t2] |] eqn:Hd; [| discriminate].
    injection Hlast as -> -> ->. cbn in Hd. injection Hd as <-.
    exists cs, t1, (out1 ++ menu u1 ++ out2). repeat split; try assumption.
    cbn [screen emit] in *. rewrite H2, H1. rewrite <- !app_assoc.
    reflexivity. }
  split; [| split].
  - intros u t cs u' t'. apply passes_write_on.
  - intros fuel u t u' t' H.
    destruct (Hrun _ _ _ _ _ H) as (cs & t1 & out & Hcs & Hnz & Hscreen).
    split.
    + exists (screen t ++ out). now rewrite Hscreen, app_assoc.
    + now exists cs, t1.
  - intros fuel t code t' H. unfold main, bind, print, ret in H.
    destruct (run fuel _ _) as [[u' t1] |] eqn:Hr; [| discriminate].
    inversion H; subst.
    destruct (Hrun _ _ _ _ _ Hr) as (cs & t1 & out & _ & _ & Hscreen).
    exists out. rewrite Hscreen. cbn [screen emit]. unfold welcome.
    now rewrite <- !app_assoc.
Qed.

Lemma session_screen_witness :
  exists code t' session,
    main 2 (typed [9; 0]%Z [] []) = Some (code, t') /\
    screen t' = [] ++ welcome ++ session ++ goodbye.
Proof.
  destruct (main 2 (typed [9; 0]%Z [] [])) as [[code t'] |] eqn:Hmain.
  - destruct (proj2 (proj2 session_screen) 2%nat (typed [9; 0]%Z [] []) code t'
                Hmain) as (session & Hscreen).
    exists code, t', session. split; [reflexivity | exact Hscreen].
  - lazy in Hmain. discriminate Hmain.
Defined.

(** ** What an operation takes from the input *)

Lemma getNumericInput_int_head (prompt : string) (t : Terminal) (z : Z)
    (zs : list (option Z)) :
  ints t = Some z :: zs ->
  (INT_MIN <= z <= INT_MAX)%Z ->
  getNumericInput_int prompt t
  = Some (z, {| ints := zs; decimals := decimals t; lines := lines t;
                screen := screen t ++ [Str prompt] |}).
Proof.
  intros Hints Hz. unfold getNumericInput_int. rewrite Hints.
  cbn [getNumericInput_loop]. apply int_fits_range in Hz. now rewrite Hz.
Qed.

Lemma getNumericInput_double_head (prompt : string) (t : Terminal) (q : Q)
    (qs : list (option Q)) :
  decimals t = Some q :: qs ->
  getNumericInput_double prompt t
  = Some (q, {| ints := ints t; decimals := qs; lines := lines t;
                screen := screen t ++ [Str prompt] |}).
Proof.
  intros Hdecs. unfold getNumericInput_double. now rewrite Hdecs.
Qed.

Lemma getStringInput_head (prompt : string) (t : Terminal) :
  getStringInput prompt t
  = Some (hd EmptyString (lines t),
          {| ints := ints t; decimals := decimals t; lines := tl (lines t);
             screen := screen t ++ [Str prompt] |}).
Proof. unfold getStringInput. destruct (lines t); reflexivity. Qed.

Lemma recordIncome_head (u : User) (t : Terminal) (a : Q)
    (qs : list (option Q)) :
  decimals t = Some a :: qs ->
  exists t',
    recordIncome u t
    = Some ({| manager :=
                 addTransaction (Income a (hd EmptyString (lines t))) (manager u);
               balance := balance u + a |}, t') /\
    ints t' = ints t /\ decimals t' = qs /\ lines t' = tl (lines t).
Proof.
  intros Hdecs. unfold recordIncome, bind, print, ret.
  rewrite (getNumericInput_double_head _ t a qs Hdecs), getStringInput_head.
  eexists. split; [reflexivity |]. repeat split.
Qed.

Lemma recordExpenditure_head (u : User) (t : Terminal) (a : Q)
    (qs : list (option Q)) :
  decimals t = Some a :: qs ->
  (balance u - a < MINIMUM_BALANCE ->
   exists t',
     recordExpenditure u t = Some (u, t') /\
     reports declined_expenditure t' /\
     ints t' = ints t /\ decimals t' = qs /\ lines t' = lines t) /\
  (~ balance u - a < MINIMUM_BALANCE ->
   exists t',
     recordExpenditure u t
     = Some ({| manager :=
                  addTransaction (Expenditure a (hd EmptyString (lines t)))
                    (manager u);
                balance := balance u - a |}, t') /\
     ints t' = ints t /\ decimals t' = qs /\ lines t' = tl (lines t)).
Proof.
  intros Hdecs. unfold recordExpenditure, bind, print, ret.
  rewrite (getNumericInput_double_head _ t a qs Hdecs).
  destruct (Qlt_le_dec (balance u - a) MINIMUM_BALANCE) as [Hlow | Hge]; split;
    intros H.
  - eexists. split; [reflexivity |]. split; [apply reports_emit |].
    repeat split.
  - contradiction.
  - exfalso. apply (Qlt_not_le _ _ H Hge).
  - rewrite getStringInput_head. eexists. split; [reflexivity |].
    repeat split.
Qed.




